(** * MasiveDelete.py: token cache, authenticated wrapper, bulk-read jobs
      and batch delete

    A shallow embedding of [src/MasiveDelete.py].  Python values that come
    out of [json.loads] are the type [json]; [time.time()] is an IEEE
    binary64 float; every function that touches the disk, the clock or the
    network is a state-and-exception computation over [world].

    The world holds the two JSON files as parsed, the CSV files as the rows
    [csv.reader] yields, the successive clock readings, the answers the
    network is about to give, and the trace of what the program sent, slept
    and wrote.  Left out: what [print] shows, the [timeout] arguments, the
    constant parameters of the token request, and failures of local file
    writes; the body of a streamed answer arrives whole.  The archive a
    download writes is recorded in the trace only: a CSV file of the same
    name keeps its rows here, where the real [open] truncates it. *)

From Stdlib Require Import ZArith Lia.
From Stdlib Require PrimFloat SpecFloat FloatOps.
From stdpp Require Import base gmap strings list pretty.
From Equations Require Import Equations.

Open Scope Z_scope.

(** ** Python values *)

(** What [json.loads] and [resp.json()] produce.  [JNull] is Python's
    [None]; a JSON object is a [dict] with string keys. *)
#[warnings="-register-all"]
Inductive json :=
  | JNull
  | JBool (b : bool)
  | JInt (z : Z)
  | JFloat (f : PrimFloat.float)
  | JStr (s : string)
  | JArr (l : list json)
  | JObj (m : gmap string json).

Inductive exn :=
  | KeyError | TypeError | ValueError | OverflowError | AttributeError
  | IndexError | NameError
  | FileNotFoundError | OSError | JSONDecodeError
  | ConnectionError
  | HTTPError (status : Z)
  | RuntimeError (msg : string)
  | SystemExit (code : Z).      (* sys.exit; raised outside every try *)

Inductive outcome (A : Type) :=
  | Ok (a : A)
  | Raise (e : exn).
Arguments Ok {A} a.
Arguments Raise {A} e.

(** [bool(v)], the test of [if v:]. *)
Definition truthy (v : json) : bool :=
  match v with
  | JNull => false
  | JBool b => b
  | JInt z => negb (z =? 0)
  | JFloat f => negb (PrimFloat.eqb f PrimFloat.zero)
  | JStr s => negb (String.eqb s "")
  | JArr l => match l with [] => false | _ => true end
  | JObj m => negb (bool_decide (m = ∅))
  end.

(** [v[key]] with a string key: only a dict has one. *)
Definition subscript (v : json) (key : string) : outcome json :=
  match v with
  | JObj m => match m !! key with Some x => Ok x | None => Raise KeyError end
  | _ => Raise TypeError
  end.

(** [v[0]]. *)
Definition subscript0 (v : json) : outcome json :=
  match v with
  | JArr l => match l with x :: _ => Ok x | [] => Raise IndexError end
  | JStr s => match s with String c _ => Ok (JStr (String c "")) | EmptyString => Raise IndexError end
  | JObj _ => Raise KeyError
  | _ => Raise TypeError
  end.

(** [v.get(key, dflt)]. *)
Definition dict_get (v : json) (key : string) (dflt : json) : outcome json :=
  match v with
  | JObj m => Ok (default dflt (m !! key))
  | _ => Raise AttributeError
  end.

(** [v == s] for a string literal [s]. *)
Definition eq_str (v : json) (s : string) : bool :=
  match v with JStr t => String.eqb t s | _ => false end.

(** ** Floats *)

(** Conversion of a Python [int] to a [float], rounding to nearest even;
    Python raises [OverflowError] where the result is not finite. *)
Definition Z_to_float (z : Z) : PrimFloat.float :=
  FloatOps.SF2Prim (SpecFloat.binary_normalize FloatOps.prec FloatOps.emax z 0 false).

Definition float_of_int (z : Z) : outcome PrimFloat.float :=
  let f := Z_to_float z in
  if PrimFloat.is_infinity f then Raise OverflowError else Ok f.

(** [int(f)]: truncation towards zero. *)
Definition int_of_float (f : PrimFloat.float) : outcome Z :=
  match FloatOps.Prim2SF f with
  | SpecFloat.S754_zero _ => Ok 0
  | SpecFloat.S754_infinity _ => Raise OverflowError
  | SpecFloat.S754_nan => Raise ValueError
  | SpecFloat.S754_finite s m e =>
      let a := if 0 <=? e then Z.pos m * 2 ^ e else Z.pos m / 2 ^ (- e) in
      Ok (if s then - a else a)
  end.

(** The operand of a float arithmetic operator. *)
Definition as_float (v : json) : outcome PrimFloat.float :=
  match v with
  | JFloat f => Ok f
  | JInt z => float_of_int z
  | JBool b => Ok (Z_to_float (if b then 1 else 0))
  | _ => Raise TypeError
  end.

(** [v - t] for a float [t]. *)
Definition sub_float (v : json) (t : PrimFloat.float) : outcome PrimFloat.float :=
  match as_float v with
  | Ok f => Ok (PrimFloat.sub f t)
  | Raise e => Raise e
  end.

(** [t + n] for a float [t] and an int [n]. *)
Definition float_add_int (t : PrimFloat.float) (n : Z) : outcome PrimFloat.float :=
  match float_of_int n with
  | Ok f => Ok (PrimFloat.add t f)
  | Raise e => Raise e
  end.

(** ** What the interpreter and the environment supply *)

(** [API_DOMAIN] is read from the process environment; [int(s)] on a string
    and [str(v)] on a float, list or dict are Python builtins. *)
Class Runtime := {
  API_DOMAIN : string;
  py_int_of_str : string → option Z;
  py_repr : json → string
}.

(** ** The world *)

Inductive file_state :=
  | FMissing                 (* no such file *)
  | FUnreadable              (* read_text raises *)
  | FInvalid                 (* json.loads raises *)
  | FJson (j : json).        (* the parsed content *)

Record response := mkResponse {
  status_code : Z;
  json_body : option json;   (* [None]: resp.json() raises *)
  content : string
}.

Inductive route := ViaApiRequest | DirectSession.

Record request := mkRequest {
  rq_route : route;
  rq_method : string;
  rq_url : string;
  rq_headers : gmap string string;
  rq_params : option json;
  rq_json : option json
}.

Inductive event :=
  | EvTokenPost                                   (* POST to the OAuth token endpoint *)
  | EvRequest (r : request)                       (* any other SESSION call *)
  | EvSleep (secs : Z)
  | EvFileWrite (name : string) (data : string).  (* open(name, "wb") and its writes *)

Record world := mkWorld {
  cache_file : file_state;                         (* CACHE_FILE *)
  history_file : file_state;                       (* JOB_IDS_HISTORY *)
  csv_files : gmap string (list (list string));    (* rows as csv.reader yields them *)
  clock : nat → PrimFloat.float;                   (* successive readings of time.time() *)
  ticks : nat;
  network : list (option response);                (* what the next calls receive; None: no answer *)
  trace : list event
}.

Definition set_cache_file (f : file_state) (w : world) : world :=
  mkWorld f (history_file w) (csv_files w) (clock w) (ticks w) (network w) (trace w).
Definition set_history_file (f : file_state) (w : world) : world :=
  mkWorld (cache_file w) f (csv_files w) (clock w) (ticks w) (network w) (trace w).
Definition set_ticks (n : nat) (w : world) : world :=
  mkWorld (cache_file w) (history_file w) (csv_files w) (clock w) n (network w) (trace w).
Definition set_network (n : list (option response)) (w : world) : world :=
  mkWorld (cache_file w) (history_file w) (csv_files w) (clock w) (ticks w) n (trace w).
Definition emit (e : event) (w : world) : world :=
  mkWorld (cache_file w) (history_file w) (csv_files w) (clock w) (ticks w) (network w)
          (trace w ++ [e]).

(** ** State and exceptions *)

Definition M (A : Type) : Type := world → outcome A * world.

Definition ret {A} (a : A) : M A := λ w, (Ok a, w).
Definition raise {A} (e : exn) : M A := λ w, (Raise e, w).
Definition lift {A} (r : outcome A) : M A := λ w, (r, w).
Definition bind {A B} (c : M A) (k : A → M B) : M B :=
  λ w, match c w with
       | (Ok a, w') => k a w'
       | (Raise e, w') => (Raise e, w')
       end.
(** [try: body  except Exception: handler] *)
Definition try_except {A} (body : M A) (handler : exn → M A) : M A :=
  λ w, match body w with
       | (Ok a, w') => (Ok a, w')
       | (Raise e, w') => handler e w'
       end.

Declare Scope py_scope.
Delimit Scope py_scope with py.
Notation "'let*' x := c 'in' k" := (bind c (λ x, k))
  (at level 10, x name, c at level 100, k at level 200, only parsing) : py_scope.
Notation "'do*' c 'in' k" := (bind c (λ _, k))
  (at level 10, c at level 100, k at level 200, only parsing) : py_scope.
Open Scope py_scope.

(** ** Primitive effects *)

Definition time_time : M PrimFloat.float :=
  λ w, (Ok (clock w (ticks w)), set_ticks (S (ticks w)) w).

Definition time_sleep (secs : Z) : M unit :=
  λ w, (Ok tt, emit (EvSleep secs) w).

(** The next answer of the network, after logging the call. *)
Definition session_send (ev : event) : M response :=
  λ w, let w1 := emit ev w in
       match network w1 with
       | Some r :: rest => (Ok r, set_network rest w1)
       | None :: rest => (Raise ConnectionError, set_network rest w1)
       | [] => (Raise ConnectionError, w1)
       end.

(** The statuses [raise_for_status] raises on: 4xx and 5xx. *)
Definition is_error_status (code : Z) : bool :=
  (400 <=? code) && (code <? 600).

(** [resp.raise_for_status()] *)
Definition raise_for_status (r : response) : M unit :=
  if is_error_status (status_code r)
  then raise (HTTPError (status_code r))
  else ret tt.

(** [resp.json()] *)
Definition resp_json (r : response) : M json :=
  match json_body r with
  | Some j => ret j
  | None => raise JSONDecodeError
  end.

(** [json.loads(path.read_text())] *)
Definition json_loads_file (f : file_state) : outcome json :=
  match f with
  | FMissing => Raise FileNotFoundError
  | FUnreadable => Raise OSError
  | FInvalid => Raise JSONDecodeError
  | FJson j => Ok j
  end.

Definition read_cache_file : M json :=
  λ w, (json_loads_file (cache_file w), w).

(** [str(v)], as an f-string formats a value. *)
Definition py_str `{Runtime} (v : json) : string :=
  match v with
  | JStr s => s
  | JNull => "None"
  | JBool true => "True"
  | JBool false => "False"
  | JInt z => pretty z
  | _ => py_repr v
  end.

(** [int(v)] *)
Definition py_int `{Runtime} (v : json) : outcome Z :=
  match v with
  | JInt z => Ok z
  | JBool b => Ok (if b then 1 else 0)
  | JFloat f => int_of_float f
  | JStr s => match py_int_of_str s with Some z => Ok z | None => Raise ValueError end
  | _ => Raise TypeError
  end.

(** ** Token cache *)

Definition SKEW : Z := 30.

(** [x > SKEW] for a float [x]; 30 is a float exactly. *)
Definition gt_SKEW (x : PrimFloat.float) : bool :=
  PrimFloat.ltb (Z_to_float SKEW) x.

Definition _load_cached_token : M json :=
  try_except
    (let* data := read_cache_file in
     let* e := lift (subscript data "expires_at") in
     let* now := time_time in
     let* d := lift (sub_float e now) in
     if gt_SKEW d then lift (subscript data "access_token") else ret JNull)
    (λ _, ret JNull).

Definition _save_cached_token (token : json) (expires_in : Z) : M unit :=
  let* now := time_time in
  let* expires_at := lift (float_add_int now expires_in) in
  λ w, (Ok tt,
        set_cache_file
          (FJson (JObj (<["expires_at" := JFloat expires_at]>
                        (<["access_token" := token]> ∅)))) w).

(** Lines 48-63 of [get_access_token]: the exchange at the token endpoint. *)
Definition refresh_access_token `{Runtime} : M json :=
  let* resp := session_send EvTokenPost in
  do* raise_for_status resp in
  let* data := resp_json resp in
  let* token := lift (subscript data "access_token") in
  let* v := lift (dict_get data "expires_in" (JInt 3600)) in
  let* expires_in := lift (py_int v) in
  do* _save_cached_token token expires_in in
  ret token.

Definition get_access_token `{Runtime} (force_refresh : bool) : M json :=
  if negb force_refresh
  then let* cached := _load_cached_token in
       if truthy cached then ret cached else refresh_access_token
  else refresh_access_token.

(** ** Authenticated request wrapper *)

(** The keyword arguments callers pass on to [SESSION.request]. *)
Record kwargs := mkKwargs {
  kw_headers : option (gmap string string);
  kw_params : option json;
  kw_json : option json
}.

Definition no_kwargs : kwargs := mkKwargs None None None.

Definition authorization `{Runtime} (token : json) : string :=
  "Zoho-oauthtoken " +:+ py_str token.

(** The [for attempt in (0, 1)] loop.  [inl v]: the loop returned [v];
    [inr last]: it ran to its end, [last] being the binding of [resp]. *)
Fixpoint api_request_loop `{Runtime} (attempts : list nat) (method url : string)
    (kw : kwargs) (last : option response) : M (json + option response) :=
  match attempts with
  | [] => ret (inr last)
  | _ :: rest =>
      let headers := default ∅ (kw_headers kw) in      (* kwargs.pop("headers", {}) *)
      let kw := mkKwargs None (kw_params kw) (kw_json kw) in
      let* token := get_access_token false in
      let headers := <["Authorization" := authorization token]> headers in
      let* resp := session_send
                     (EvRequest (mkRequest ViaApiRequest method url headers
                                           (kw_params kw) (kw_json kw))) in
      if negb (status_code resp =? 401)
      then do* raise_for_status resp in
           let* v := resp_json resp in
           ret (inl v)
      else do* get_access_token true in
           api_request_loop rest method url kw (Some resp)
  end.

Definition api_request `{Runtime} (method endpoint : string) (kw : kwargs) : M json :=
  let url := API_DOMAIN +:+ endpoint in
  let* r := api_request_loop [0%nat; 1%nat] method url kw None in
  match r with
  | inl v => ret v
  | inr (Some resp) => do* raise_for_status resp in ret JNull
  | inr None => raise NameError
  end.

(** ** Bulk-read jobs *)

Definition obj (kvs : list (string * json)) : json :=
  JObj (foldl (λ m kv, <[kv.1 := kv.2]> m) ∅ kvs).

Definition bulk_read_payload (module_name : string) : json :=
  obj [("query",
        obj [("module", obj [("api_name", JStr module_name)]);
             ("fields", JArr [JStr "id"]);
             ("criteria",
              obj [("field", obj [("api_name", JStr "Due_Date")]);
                   ("comparator", JStr "less_than");
                   ("value", JStr "2025-05-01")])])].

(** [res["data"][0]["details"]["id"]] *)
Definition created_job_id (res : json) : outcome json :=
  match subscript res "data" with
  | Ok data =>
      match subscript0 data with
      | Ok job =>
          match subscript job "details" with
          | Ok details => subscript details "id"
          | Raise e => Raise e
          end
      | Raise e => Raise e
      end
  | Raise e => Raise e
  end.

(** The dict display [{name: name, "id": ..., "module": module_name}] as
    [json.dumps] writes it: the first key is the VALUE of the variable
    [name] ([None] is written as the key "null"). *)
Definition job_record (name : option string) (id : json) (module_name : string) : json :=
  let key := match name with Some s => s | None => "null" end in
  let val := match name with Some s => JStr s | None => JNull end in
  JObj (<["module" := JStr module_name]> (<["id" := id]> (<[key := val]> ∅))).

Definition create_bulk_read_job `{Runtime} (module_name : string) (name : option string)
    : M json :=
  let* res := api_request "POST" "/crm/bulk/v8/read"
                (mkKwargs None None (Some (bulk_read_payload module_name))) in
  let* id := lift (created_job_id res) in
  let dataToSave := job_record name id module_name in
  let* history :=
    (λ w, match history_file w with
          | FMissing => (Ok [dataToSave], w)                     (* not exists() *)
          | f => match json_loads_file f with
                 | Ok (JArr l) => (Ok (l ++ [dataToSave]), w)    (* history.append *)
                 | Ok _ => (Raise AttributeError, w)
                 | Raise e => (Raise e, w)
                 end
          end) in
  do* (λ w, (Ok tt, set_history_file (FJson (JArr history)) w)) in
  lift (created_job_id res).

(** One pass through the body of a [while True] loop. *)
Inductive step (A : Type) :=
  | Return (a : A)
  | Continue.
Arguments Return {A} a.
Arguments Continue {A}.

Fixpoint while_true {A} (fuel : nat) (body : M (step A)) (w : world)
    : option (outcome A * world) :=
  match fuel with
  | O => None
  | S fuel' =>
      match body w with
      | (Ok (Return a), w') => Some (Ok a, w')
      | (Ok Continue, w') => while_true fuel' body w'
      | (Raise e, w') => Some (Raise e, w')
      end
  end.

Definition job_url (job_id : string) : string := "/crm/bulk/v8/read/" +:+ job_id.

Definition check_job_status_body `{Runtime} (job_id : string) : M (step json) :=
  let* res := api_request "GET" (job_url job_id) no_kwargs in
  let* data := lift (subscript res "data") in
  let* job := lift (subscript0 data) in
  let* state := lift (subscript job "state") in
  if eq_str state "COMPLETED"
  then let* r := lift (subscript job "result") in ret (Return r)
  else if eq_str state "FAILURE" || eq_str state "FAILED"
  then raise (RuntimeError "Bulk read job falló")
  else do* time_sleep 5 in ret Continue.

Definition check_job_status `{Runtime} (fuel : nat) (job_id : string) (w : world)
    : option (outcome json * world) :=
  while_true fuel (check_job_status_body job_id) w.

Definition zip_name `{Runtime} (out_prefix : string) (page : json) : string :=
  out_prefix +:+ "_page_" +:+ py_str page +:+ ".zip".

Definition download_all_pages `{Runtime} (job_id out_prefix : string) : M unit :=
  let* res := api_request "GET" (job_url job_id) no_kwargs in
  let* data := lift (subscript res "data") in
  let* job := lift (subscript0 data) in
  let* result := lift (subscript job "result") in
  let* page := lift (subscript result "page") in
  let* next_token := lift (dict_get result "next_page_token" JNull) in
  let* more := lift (dict_get result "more_records" (JBool false)) in
  let* token := get_access_token false in
  let headers := <["Authorization" := authorization token]> ∅ in
  let* url := lift (subscript result "download_url") in
  let* r := session_send
              (EvRequest (mkRequest DirectSession "GET" (API_DOMAIN +:+ py_str url)
                                    headers None None)) in
  λ w, (Ok tt, emit (EvFileWrite (zip_name out_prefix page) (content r)) w).

(** ** Batch delete *)

(** The dict [csv.DictReader] builds for one row: [dict(zip(fieldnames, row))],
    then [restval] ([None]) for the field names the row is too short for.
    (The [restkey] entry of a row that is too long has the key [None], which
    no string key reads.) *)
Definition dict_reader_row (fieldnames row : list string) : gmap string (option string) :=
  let d := foldl (λ m kv, <[kv.1 := Some kv.2]> m) ∅ (zip fieldnames row) in
  foldl (λ m k, <[k := None]> m) d (drop (length row) fieldnames).

(** [row["Id"]] *)
Definition row_Id (fieldnames row : list string) : outcome (option string) :=
  match dict_reader_row fieldnames row !! "Id" with
  | Some v => Ok v
  | None => Raise KeyError
  end.

(** The rows [for row in reader] visits: [DictReader] skips empty rows. *)
Definition reader_rows (rows : list (list string)) : list (list string) :=
  filter (λ row, row ≠ []) rows.

Fixpoint read_ids (fieldnames : list string) (rows : list (list string))
    : outcome (list (option string)) :=
  match rows with
  | [] => Ok []
  | row :: rest =>
      match row_Id fieldnames row with
      | Ok v => match read_ids fieldnames rest with
                | Ok ids => Ok (v :: ids)
                | Raise e => Raise e
                end
      | Raise e => Raise e
      end
  end.

(** The [with open(file_path)] block: the list [ids]. *)
Definition read_id_column (file_path : string) : M (list (option string)) :=
  λ w, match csv_files w !! file_path with
       | None => (Raise FileNotFoundError, w)
       | Some [] => (Raise TypeError, w)            (* fieldnames is None *)
       | Some (fieldnames :: rows) =>
           if bool_decide ("Id" ∈ fieldnames)
           then (read_ids fieldnames (reader_rows rows), w)
           else (Raise (RuntimeError "El archivo debe tener una columna llamada 'id'"), w)
       end.

(** The generator [chunked]; [size] is at least 1 ([islice] rejects a
    negative count, and the one call passes 100). *)
Equations chunked {A} (size : nat) (iterable : list A) : list (list A)
    by wf (length iterable) lt :=
  chunked size [] := [];
  chunked size (first :: it) :=
    (first :: take (size - 1)%nat it) :: chunked size (drop (size - 1)%nat it).
Next Obligation. rewrite length_drop. simpl. lia. Qed.

(** The items of [batch] as strings; a [None] among them is the
    [TypeError] of [str.join]. *)
Fixpoint str_items (batch : list (option string)) : outcome (list string) :=
  match batch with
  | [] => Ok []
  | None :: _ => Raise TypeError
  | Some s :: rest =>
      match str_items rest with
      | Ok l => Ok (s :: l)
      | Raise e => Raise e
      end
  end.

(** [",".join(batch)] *)
Definition join_ids (batch : list (option string)) : outcome string :=
  match str_items batch with
  | Ok l => Ok (String.concat "," l)
  | Raise e => Raise e
  end.

Definition delete_url `{Runtime} (module ids_str : string) : string :=
  API_DOMAIN +:+ "/crm/v8/" +:+ module +:+ "?ids=" +:+ ids_str +:+ "&wf_trigger=true".

(** The [for batch in chunked(ids, 100)] loop, with its local
    [total_deleted] threaded through and returned at exit. *)
Fixpoint delete_loop `{Runtime} (module : string) (headers : gmap string string)
    (batches : list (list (option string))) (total_deleted : Z) (w : world)
    : (outcome unit * Z) * world :=
  match batches with
  | [] => ((Ok tt, total_deleted), w)
  | batch :: rest =>
      match join_ids batch with
      | Raise e => ((Raise e, total_deleted), w)
      | Ok ids_str =>
          let url := delete_url module ids_str in
          match session_send
                  (EvRequest (mkRequest DirectSession "DELETE" url headers None None)) w with
          | (Raise e, w1) => ((Raise e, total_deleted), w1)
          | (Ok resp, w1) =>
              match raise_for_status resp w1 with
              | (Raise e, w2) => ((Raise e, total_deleted), w2)
              | (Ok _, w2) =>
                  delete_loop module headers rest
                    (total_deleted + Z.of_nat (length batch)) w2
              end
          end
      end
  end.

Definition delete_batch_from_file `{Runtime} (module file_path : string) (w : world)
    : (outcome unit * Z) * world :=
  match read_id_column file_path w with
  | (Raise e, w1) => ((Raise e, 0), w1)
  | (Ok ids, w1) =>
      match get_access_token false w1 with
      | (Raise e, w2) => ((Raise e, 0), w2)
      | (Ok token, w2) =>
          let headers := <["Authorization" := authorization token]> ∅ in
          delete_loop module headers (chunked 100 ids) 0 w2
      end
  end.

(** ** Field metadata *)

(** Whether [format(v, "<30")] succeeds: [None], lists and dicts reject a
    format specification with [TypeError]. *)
Definition formattable (v : json) : bool :=
  match v with
  | JNull | JArr _ | JObj _ => false
  | _ => true
  end.

(** One pass of the loop of [list_fields]: the two values the printed line
    shows, [f['api_name']] and [f.get('data_type')]. *)
Definition field_line (f : json) : outcome (json * json) :=
  match subscript f "api_name" with
  | Raise e => Raise e
  | Ok api_name =>
      if formattable api_name
      then match dict_get f "data_type" JNull with
           | Ok data_type => Ok (api_name, data_type)
           | Raise e => Raise e
           end
      else Raise TypeError
  end.

(** [for f in fields: print(...)] over a list: the lines printed, and how
    the loop ended. *)
Fixpoint print_fields (fields : list json) : list (json * json) * outcome unit :=
  match fields with
  | [] => ([], Ok tt)
  | f :: rest =>
      match field_line f with
      | Raise e => ([], Raise e)
      | Ok line => let (lines, r) := print_fields rest in (line :: lines, r)
      end
  end.

(** The same loop over any value: a string yields its characters and a
    dict its keys, all of them strings, on which [f['api_name']] raises
    [TypeError]; the other values are not iterable. *)
Definition print_fields_of (fields : json) : list (json * json) * outcome unit :=
  match fields with
  | JArr l => print_fields l
  | JStr s => if String.eqb s "" then ([], Ok tt) else ([], Raise TypeError)
  | JObj m => if bool_decide (m = ∅) then ([], Ok tt) else ([], Raise TypeError)
  | _ => ([], Raise TypeError)
  end.

Definition fields_kwargs (module_name : string) : kwargs :=
  mkKwargs None (Some (obj [("module", JStr module_name)])) None.

(** [list_fields]: the lines it prints, and its outcome. *)
Definition list_fields `{Runtime} (module_name : string) (w : world)
    : (list (json * json) * outcome unit) * world :=
  match api_request "GET" "/crm/v8/settings/fields" (fields_kwargs module_name) w with
  | (Raise e, w1) => (([], Raise e), w1)
  | (Ok res, w1) =>
      match dict_get res "fields" (JArr []) with
      | Raise e => (([], Raise e), w1)
      | Ok fields => (print_fields_of fields, w1)
      end
  end.

(** ** The command line *)

(** The [download] action of the script: it asks for the job's state
    itself before it calls [download_all_pages].  (The other actions only
    call the function they are named after.) *)
Definition action_download `{Runtime} (job_id out_prefix : string) : M unit :=
  let* res := api_request "GET" (job_url job_id) no_kwargs in
  let* data := lift (subscript res "data") in
  let* job := lift (subscript0 data) in
  let* state := lift (subscript job "state") in
  if negb (eq_str state "COMPLETED")
  then raise (SystemExit 1)
  else download_all_pages job_id out_prefix.

(** [sys.argv[i]] *)
Definition argv_at (argv : list string) (i : nat) : outcome string :=
  match argv !! i with
  | Some a => Ok a
  | None => Raise IndexError
  end.

(** Running [c] on the argument [argv[i]]. *)
Definition with_arg {A} (argv : list string) (i : nat) (c : string → M A) : M A :=
  let* a := lift (argv_at argv i) in c a.

(** The [__main__] block.  [fuel] bounds the polling of the [status]
    action, the only one that loops. *)
Definition main `{Runtime} (fuel : nat) (argv : list string) (w : world)
    : option (outcome unit * world) :=
  if (length argv <? 2)%nat then Some (Raise (SystemExit 1), w)
  else match argv_at argv 1 with
  | Raise e => Some (Raise e, w)
  | Ok action =>
  if String.eqb action "create" then
    let module := if (2 <? length argv)%nat then argv_at argv 2 else Ok "Tasks" in
    match module with
    | Raise e => Some (Raise e, w)
    | Ok module =>
        if (length argv <? 4)%nat then Some (Raise (SystemExit 1), w)
        else Some (with_arg argv 3 (λ name,
                     do* create_bulk_read_job module (Some name) in ret tt) w)
    end
  else if String.eqb action "status" then
    if (length argv <? 3)%nat then Some (Raise (SystemExit 1), w)
    else match argv_at argv 2 with
         | Raise e => Some (Raise e, w)
         | Ok job_id =>
             match check_job_status fuel job_id w with
             | None => None
             | Some (Ok _, w') => Some (Ok tt, w')
             | Some (Raise e, w') => Some (Raise e, w')
             end
         end
  else if String.eqb action "download" then
    if (length argv <? 4)%nat then Some (Raise (SystemExit 1), w)
    else Some (with_arg argv 2 (λ job_id,
                 with_arg argv 3 (λ out_prefix, action_download job_id out_prefix)) w)
  else if String.eqb action "list_fields" then
    if (length argv <? 3)%nat then Some (Raise (SystemExit 1), w)
    else Some (with_arg argv 2 (λ module_name w,
                 let '(_, r, w') := list_fields module_name w in (r, w')) w)
  else if String.eqb action "delete_batch" then
    if (length argv <? 4)%nat then Some (Raise (SystemExit 1), w)
    else Some (with_arg argv 2 (λ module_name,
                 with_arg argv 3 (λ file_path w,
                   let '(r, _, w') := delete_batch_from_file module_name file_path w in
                   (r, w'))) w)
  else Some (Ok tt, w)
  end.

(** * The vocabulary of the properties *)

(** ** Reading a trace *)

Definition is_token_post (e : event) : bool :=
  match e with EvTokenPost => true | _ => false end.
Definition is_file_write (e : event) : bool :=
  match e with EvFileWrite _ _ => true | _ => false end.
Definition is_sleep (e : event) : bool :=
  match e with EvSleep _ => true | _ => false end.
Definition is_direct_request (e : event) : bool :=
  match e with
  | EvRequest rq => match rq_route rq with DirectSession => true | ViaApiRequest => false end
  | _ => false
  end.

(** The events a run from [w] to [w'] added. *)
Definition events_since (w w' : world) : list event :=
  drop (length (trace w)) (trace w').

Definition requests_of (evs : list event) : list request :=
  omap (λ e, match e with EvRequest r => Some r | _ => None end) evs.

(** An event [api_request] may add: a token exchange, or a call routed
    through the wrapper to the given method and URL, with an
    [Authorization] header. *)
Definition wrapper_event (method url : string) (e : event) : Prop :=
  e = EvTokenPost ∨
  ∃ rq, e = EvRequest rq ∧ rq_route rq = ViaApiRequest ∧ rq_method rq = method ∧
        rq_url rq = url ∧ is_Some (rq_headers rq !! "Authorization").

(** A call sent on the session directly, with an [Authorization] header. *)
Definition direct_event (method : string) (e : event) : Prop :=
  ∃ rq, e = EvRequest rq ∧ rq_route rq = DirectSession ∧ rq_method rq = method ∧
        is_Some (rq_headers rq !! "Authorization").

(** [w1] is [w] but for clock readings taken. *)
Definition same_io (w w1 : world) : Prop :=
  trace w1 = trace w ∧ network w1 = network w ∧ cache_file w1 = cache_file w.

(** The world once [rq] is sent and the first pending answer consumed. *)
Definition answered (rq : request) (rest : list (option response)) (w : world) : world :=
  set_network rest (emit (EvRequest rq) w).

(** What no token lookup and no request changes: the history file and
    the clock. *)
Definition frame (w w' : world) : Prop :=
  history_file w' = history_file w ∧ clock w' = clock w.

(** No file was written between [w] and [w'], the token cache and the
    job history apart. *)
Definition no_file_written (w w' : world) : Prop :=
  filter is_file_write (events_since w w') = [].

(** ** The token cache *)

(** What the cache file offers: the token and the expiry of a cache that
    parses to an object holding both. *)
Definition cached_entry (w : world) : option (json * json) :=
  match cache_file w with
  | FJson (JObj m) =>
      match m !! "access_token", m !! "expires_at" with
      | Some t, Some e => Some (t, e)
      | _, _ => None
      end
  | _ => None
  end.

(** [expires_at - now > SKEW], false where the subtraction raises. *)
Definition unexpired (expires_at : json) (now : PrimFloat.float) : bool :=
  match sub_float expires_at now with
  | Ok d => gt_SKEW d
  | Raise _ => false
  end.

(** The token the cache yields at the next clock reading, if any. *)
Definition fresh_token (w : world) : option json :=
  match cached_entry w with
  | Some (t, e) => if unexpired e (clock w (ticks w)) then Some t else None
  | None => None
  end.

(** The four ways the cache file can fail to yield both fields. *)
Definition cache_unusable (w : world) : Prop :=
  cache_file w = FMissing ∨ cache_file w = FUnreadable ∨ cache_file w = FInvalid ∨
  ∃ m, cache_file w = FJson (JObj m) ∧
       (m !! "expires_at" = None ∨ m !! "access_token" = None).

(** ** The wrapper *)

(** What [resp.raise_for_status(); return resp.json()] yields. *)
Definition checked_json (resp : response) : outcome json :=
  if is_error_status (status_code resp)
  then Raise (HTTPError (status_code resp))
  else match json_body resp with
       | Some j => Ok j
       | None => Raise JSONDecodeError
       end.

(** The request [api_request] sends with a given token and header dict. *)
Definition api_call `{Runtime} (method endpoint : string) (headers : gmap string string)
    (kw : kwargs) (token : json) : request :=
  mkRequest ViaApiRequest method (API_DOMAIN +:+ endpoint)
            (<["Authorization" := authorization token]> headers)
            (kw_params kw) (kw_json kw).

(** A request that carries what the caller of [api_request] passed: its
    method, URL, [params] and [json], and an [Authorization] header. *)
Definition same_call (method url : string) (kw : kwargs) (rq : request) : Prop :=
  rq_route rq = ViaApiRequest ∧ rq_method rq = method ∧ rq_url rq = url
  ∧ rq_params rq = kw_params kw ∧ rq_json rq = kw_json kw
  ∧ is_Some (rq_headers rq !! "Authorization").

(** ** Batch delete *)

(** The call the delete loop sends for one batch. *)
Definition delete_call `{Runtime} (module : string) (headers : gmap string string)
    (ids_str : string) : request :=
  mkRequest DirectSession "DELETE" (delete_url module ids_str) headers None None.

(** [strs] are the [ids=] strings of [batches], in order. *)
Definition joined (batches : list (list (option string))) (strs : list string) : Prop :=
  Forall2 (λ b s, join_ids b = Ok s) batches strs.

(** The cells of column [i], one per row the reader visits; [None] where
    the row is too short to have one. *)
Definition column (i : nat) (rows : list (list string)) : list (option string) :=
  map (λ row, row !! i) (reader_rows rows).


Definition missing_Id : exn :=
  RuntimeError "El archivo debe tener una columna llamada 'id'".


(** ** Jobs *)

(** One poll of [check_job_status]: the job of the answer and its state. *)
Definition poll `{Runtime} (job_id : string) : M (json * json) :=
  let* res := api_request "GET" (job_url job_id) no_kwargs in
  let* data := lift (subscript res "data") in
  let* job := lift (subscript0 data) in
  let* state := lift (subscript job "state") in
  ret (job, state).

Definition terminal (state : json) : bool :=
  eq_str state "COMPLETED" || eq_str state "FAILURE" || eq_str state "FAILED".

(** The world in which poll number [n] (from 0) takes place, when a sleep of
    5 seconds follows each poll before it. *)
Fixpoint world_at_poll `{Runtime} (job_id : string) (n : nat) (w : world) : world :=
  match n with
  | O => w
  | S n' => world_at_poll job_id n' (emit (EvSleep 5) (poll job_id w).2)
  end.

Definition nth_poll `{Runtime} (job_id : string) (n : nat) (w : world)
    : outcome (json * json) * world :=
  poll job_id (world_at_poll job_id n w).

(** What the loop ends with on a terminal state. *)
Definition verdict (job state : json) : outcome json :=
  if eq_str state "COMPLETED" then subscript job "result"
  else Raise (RuntimeError "Bulk read job falló").

(** [res["data"][0]["result"]] *)
Definition job_result (res : json) : outcome json :=
  match subscript res "data" with
  | Ok data => match subscript0 data with
               | Ok job => subscript job "result"
               | Raise e => Raise e
               end
  | Raise e => Raise e
  end.

(** Whether a history file can be appended to: absent, or a JSON list. *)
Definition appendable (f : file_state) : bool :=
  match f with
  | FMissing | FJson (JArr _) => true
  | _ => false
  end.

(** What reading a history file that cannot be appended to raises. *)
Definition history_error (f : file_state) : exn :=
  match json_loads_file f with
  | Raise e => e
  | Ok _ => AttributeError
  end.

(** The GET that fetches the archive. *)
Definition download_call `{Runtime} (token url : json) : request :=
  mkRequest DirectSession "GET" (API_DOMAIN +:+ py_str url)
            (<["Authorization" := authorization token]> ∅) None None.

(** ** The command line *)

(** The number of [sys.argv] items an action asks for, the script name and
    the action included; [None] for a word that is no action. *)
Definition required_args (action : string) : option nat :=
  if String.eqb action "create" then Some 4%nat
  else if String.eqb action "status" then Some 3%nat
  else if String.eqb action "download" then Some 4%nat
  else if String.eqb action "list_fields" then Some 3%nat
  else if String.eqb action "delete_batch" then Some 4%nat
  else None.

(** The least length of [argv] that does not end in the usage exit. *)
Definition min_args (argv : list string) : nat :=
  match argv !! 1%nat with
  | Some action => default 2%nat (required_args action)
  | None => 2%nat
  end.

(** A result with its value dropped, as a statement that ignores it. *)
Definition ignore_value {A} (r : outcome A * world) : outcome unit * world :=
  (match r.1 with Ok _ => Ok tt | Raise e => Raise e end, r.2).

(** What a field of the metadata answer shows on its line. *)
Definition shows (f : json) (line : json * json) : Prop :=
  ∃ m, f = JObj m ∧ m !! "api_name" = Some line.1 ∧ formattable line.1 = true
       ∧ line.2 = default JNull (m !! "data_type").

(** * A concrete runtime and concrete worlds *)

Definition digit_value (c : Ascii.ascii) : option Z :=
  let n := Z.of_nat (Ascii.nat_of_ascii c) in
  if (48 <=? n) && (n <=? 57) then Some (n - 48) else None.

Fixpoint digits_value (s : string) (acc : Z) : option Z :=
  match s with
  | EmptyString => Some acc
  | String c s' => match digit_value c with
                   | Some d => digits_value s' (10 * acc + d)
                   | None => None
                   end
  end.

(** A stand-in for the builtins: [int] of a plain decimal string, and a
    fixed text for the values whose [repr] is not spelled out. *)
#[export] Instance sample_runtime : Runtime := {|
  API_DOMAIN := "https://www.zohoapis.com";
  py_int_of_str := λ s, match s with EmptyString => None | _ => digits_value s 0 end;
  py_repr := λ _, "<repr>"
|}.

(** Answers of the network. *)
Definition ok_json (j : json) : option response := Some (mkResponse 200 (Some j) "").
Definition status_only (code : Z) : option response := Some (mkResponse code None "").

Definition token_response (token : string) (expires_in : Z) : option response :=
  ok_json (obj [("access_token", JStr token); ("expires_in", JInt expires_in)]).

Definition job_answer (fields : list (string * json)) : option response :=
  ok_json (obj [("data", JArr [obj fields])]).

Definition job_created (id : string) : option response :=
  ok_json (obj [("data", JArr [obj [("details", obj [("id", JStr id)])]])]).

Definition cache_of (token : json) (expires_at : json) : file_state :=
  FJson (obj [("access_token", token); ("expires_at", expires_at)]).

(** A world whose clock always reads [now]. *)
Definition world_at (now : Z) (cache : file_state) (net : list (option response)) : world :=
  mkWorld cache FMissing ∅ (λ _, Z_to_float now) 0 net [].

(** A clock reading, and an expiry 1000 seconds after it. *)
Definition t0 : Z := 1700000000.
Definition t0_plus_1000 : json := JInt 1700001000.

(** A cached token "abc" that has 1000 seconds left, and the given pending
    answers. *)
Definition world_with_token (net : list (option response)) : world :=
  world_at t0 (cache_of (JStr "abc") t0_plus_1000) net.

(** The same, with one CSV file "ids.csv". *)
Definition world_with_csv (rows : list (list string)) (net : list (option response))
    : world :=
  mkWorld (cache_of (JStr "abc") t0_plus_1000) FMissing {["ids.csv" := rows]}
          (λ _, Z_to_float t0) 0 net [].

(** A header [Id] and [n] rows holding the same identifier. *)
Definition csv_of_size (n : nat) : list (list string) :=
  ["Id"] :: replicate n ["7"].

(** Three answers of the job endpoint: queued, in progress, completed. *)
Definition completed_job : json :=
  obj [("state", JStr "COMPLETED"); ("result", obj [("page", JInt 1)])].

Definition polling_world : world :=
  world_with_token [job_answer [("state", JStr "QUEUED")];
                    job_answer [("state", JStr "IN PROGRESS")];
                    ok_json (obj [("data", JArr [completed_job])])].

(** A completed job whose result announces further pages, and the archive. *)
Definition paged_result : json :=
  obj [("page", JInt 1); ("download_url", JStr "/crm/bulk/v8/read/42/result");
       ("more_records", JBool true); ("next_page_token", JStr "tok2")].

Definition download_world : world :=
  world_with_token
    [ok_json (obj [("data", JArr [obj [("state", JStr "COMPLETED");
                                       ("result", paged_result)]])]);
     Some (mkResponse 200 None "PK...")].

(** The same job, with a further answer pending behind the archive. *)
Definition download_world_more : world :=
  set_network (network download_world ++ [Some (mkResponse 200 None "PK2")])
              download_world.

(** * Properties *)

(** ** Chunking *)

Section Chunks.
Local Open Scope nat_scope.
Context {A : Type}.
Implicit Types (l : list A) (n k : nat).

Lemma chunked_nil n : chunked n ([] : list A) = [].
Proof. by simp chunked. Qed.

Lemma chunked_step n x l :
  chunked (S n) (x :: l) = take (S n) (x :: l) :: chunked (S n) (drop (S n) (x :: l)).
Proof. simp chunked. simpl. by rewrite Nat.sub_0_r. Qed.

Lemma chunked_lookup n k : ∀ l,
  chunked (S n) l !! k =
    if decide (k * S n < length l) then Some (take (S n) (drop (k * S n) l)) else None.
Proof.
  induction k as [|k IH]; intros [|x l].
  - rewrite chunked_nil, decide_False by (simpl; lia). done.
  - rewrite chunked_step, decide_True by (simpl; lia). done.
  - rewrite chunked_nil, decide_False by (simpl; lia). done.
  - rewrite chunked_step. cbn [lookup list_lookup]. rewrite IH.
    rewrite length_drop, drop_drop.
    replace (S n + k * S n) with (S k * S n) by lia.
    repeat case_decide; try done; simpl in *; lia.
Qed.

Lemma chunked_length n l : length (chunked (S n) l) = (length l + n) / S n.
Proof.
  remember (length l) as m eqn:Hm. revert l Hm.
  induction m as [m IH] using lt_wf_ind. intros [|x l] ->.
  - rewrite chunked_nil. cbn [length]. rewrite Nat.add_0_l, Nat.div_small; [done | lia].
  - rewrite chunked_step. cbn [length drop].
    rewrite (IH (length (drop n l))); [| rewrite length_drop; cbn [length]; lia | done].
    rewrite length_drop.
    destruct (decide (n ≤ length l)) as [Hle|Hgt].
    + replace (length l - n + n) with (length l) by lia.
      replace (S (length l) + n) with (length l + 1 * S n) by lia.
      rewrite Nat.div_add by lia. lia.
    + replace (length l - n + n) with n by lia.
      rewrite (Nat.div_small n) by lia.
      replace (S (length l) + n) with ((length l + n - n) + 1 * S n) by lia.
      rewrite Nat.div_add by lia. rewrite Nat.div_small; lia.
Qed.

Lemma chunked_concat n l : concat (chunked (S n) l) = l.
Proof.
  remember (length l) as m eqn:Hm. revert l Hm.
  induction m as [m IH] using lt_wf_ind. intros [|x l] ->.
  - by rewrite chunked_nil.
  - rewrite chunked_step. cbn [concat].
    rewrite (IH (length (drop (S n) (x :: l)))); [apply take_drop | | done].
    rewrite length_drop. cbn [length]. lia.
Qed.
End Chunks.

(** C3: for every list of N identifiers, [chunked(ids, 100)] yields
    ceil(N/100) batches, each of size at most 100 and all but possibly the
    last of size exactly 100, whose in-order concatenation is the original
    list; position [i] of the list sits in batch [i / 100] at offset
    [i mod 100], so every identifier is in exactly one batch, once. *)
Theorem chunked_100_partition {A} (ids : list A) :
  let batches := chunked 100 ids in
  let N := length ids in
  (length batches = (N + 99) / 100
   ∧ N ≤ 100 * length batches < N + 100
   ∧ Forall (λ b, 1 ≤ length b ≤ 100) batches
   ∧ (∀ i b, batches !! i = Some b → S i < length batches → length b = 100)
   ∧ concat batches = ids
   ∧ (∀ i, i < N →
        ∃ b, batches !! (i / 100) = Some b ∧ b !! (i mod 100) = ids !! i))%nat.
Proof.
  intros batches N. subst batches N. change 100%nat with (S 99).
  pose proof (chunked_length 99 ids) as Hlen.
  pose proof (Nat.div_mod_eq (length ids + 99) (S 99)) as Hdm.
  pose proof (Nat.mod_upper_bound (length ids + 99) (S 99) ltac:(lia)) as Hub.
  repeat split.
  - done.
  - lia.
  - lia.
  - apply Forall_lookup_2. intros i b Hb.
    rewrite chunked_lookup in Hb. case_decide; [|done].
    injection Hb as <-. rewrite length_take, length_drop. lia.
  - intros i b Hb Hi.
    rewrite chunked_lookup in Hb. case_decide; [|done].
    injection Hb as <-. rewrite length_take, length_drop. lia.
  - apply chunked_concat.
  - intros i Hi. eexists. rewrite chunked_lookup.
    pose proof (Nat.div_mod_eq i (S 99)) as Hi1.
    pose proof (Nat.mod_upper_bound i (S 99) ltac:(lia)) as Hi2.
    rewrite decide_True by lia. split; [done|].
    rewrite lookup_take_lt by lia. rewrite lookup_drop. f_equal. lia.
Qed.

(** ** Running a computation *)

Ltac unfold_m :=
  unfold bind, ret, raise, lift, try_except, time_time, time_sleep, session_send,
    read_cache_file, raise_for_status, resp_json in *.

Lemma bind_ok {A B} (c : M A) (k : A → M B) w a w' :
  c w = (Ok a, w') → bind c k w = k a w'.
Proof. unfold bind. by intros ->. Qed.

Lemma bind_raise {A B} (c : M A) (k : A → M B) w e w' :
  c w = (Raise e, w') → bind c k w = (Raise e, w').
Proof. unfold bind. by intros ->. Qed.

Lemma _load_cached_token_trace w : trace (_load_cached_token w).2 = trace w.
Proof.
  unfold _load_cached_token. unfold_m.
  destruct (cache_file w) as [| | |j]; simpl; try done.
  destruct (subscript j "expires_at"); simpl; try done.
  destruct (sub_float _ _); simpl; try done.
  destruct (gt_SKEW _); simpl; try done.
  destruct (subscript j "access_token"); done.
Qed.

Lemma _load_cached_token_fresh w t :
  fresh_token w = Some t →
  _load_cached_token w = (Ok t, set_ticks (S (ticks w)) w).
Proof.
  unfold fresh_token, cached_entry, unexpired, _load_cached_token. unfold_m.
  destruct (cache_file w) as [| | |[]]; simpl; try done.
  destruct (m !! "access_token") eqn:Ht; [|done].
  destruct (m !! "expires_at") eqn:He; [|done].
  destruct (sub_float _ _); [|done].
  destruct (gt_SKEW _); [|done]. by intros [= ->].
Qed.

Lemma _load_cached_token_stale w :
  fresh_token w = None →
  ∃ w1, _load_cached_token w = (Ok JNull, w1) ∧ trace w1 = trace w ∧
        network w1 = network w ∧ cache_file w1 = cache_file w.
Proof.
  unfold fresh_token, cached_entry, unexpired, _load_cached_token. unfold_m.
  intros Hf.
  destruct (cache_file w) as [| | |[]] eqn:Hc; simpl; try by eexists.
  destruct (m !! "expires_at") eqn:He; simpl; [|by eexists].
  destruct (m !! "access_token") eqn:Ht;
    (destruct (sub_float _ _); simpl; [|by eexists]);
    (destruct (gt_SKEW _); simpl; [|by eexists]); [done | by eexists].
Qed.

Lemma refresh_access_token_trace `{Runtime} w :
  trace (refresh_access_token w).2 = trace w ++ [EvTokenPost].
Proof.
  unfold refresh_access_token, _save_cached_token. unfold_m.
  destruct (network (emit EvTokenPost w)) as [|[r|] rest] eqn:Hn; simpl; try done.
  destruct (is_error_status _); simpl; try done.
  destruct (json_body r); simpl; try done.
  destruct (subscript _ _); simpl; try done.
  destruct (dict_get _ _ _); simpl; try done.
  destruct (py_int _); simpl; try done.
  destruct (float_add_int _ _); simpl; done.
Qed.

Lemma snoc_neq {A} (l : list A) x : l ++ [x] ≠ l.
Proof.
  intros Heq. apply (f_equal length) in Heq.
  rewrite length_app in Heq. simpl in Heq. lia.
Qed.

Lemma get_access_token_hit `{Runtime} w t :
  fresh_token w = Some t → truthy t = true →
  get_access_token false w = (Ok t, set_ticks (S (ticks w)) w).
Proof.
  intros Hf Ht. unfold get_access_token. simpl.
  rewrite (bind_ok _ _ _ _ _ (_load_cached_token_fresh _ _ Hf)). by rewrite Ht.
Qed.

Lemma get_access_token_falsy `{Runtime} w t :
  fresh_token w = Some t → truthy t = false →
  get_access_token false w = refresh_access_token (set_ticks (S (ticks w)) w).
Proof.
  intros Hf Ht. unfold get_access_token. simpl.
  rewrite (bind_ok _ _ _ _ _ (_load_cached_token_fresh _ _ Hf)). by rewrite Ht.
Qed.

Lemma get_access_token_miss `{Runtime} w :
  fresh_token w = None →
  ∃ w1, same_io w w1 ∧ _load_cached_token w = (Ok JNull, w1) ∧
        get_access_token false w = refresh_access_token w1.
Proof.
  intros Hf. destruct (_load_cached_token_stale _ Hf) as (w1 & Hl & Hio).
  exists w1. split; [done|]. split; [done|].
  unfold get_access_token. simpl. by rewrite (bind_ok _ _ _ _ _ Hl).
Qed.

(** The refresh hands back the [access_token] of the endpoint's answer. *)
Lemma refresh_access_token_value `{Runtime} w tok :
  (refresh_access_token w).1 = Ok tok →
  ∃ resp rest data, network w = Some resp :: rest ∧ json_body resp = Some data ∧
                    subscript data "access_token" = Ok tok.
Proof.
  unfold refresh_access_token, _save_cached_token. unfold_m. simpl.
  destruct (network w) as [|[r|] rest] eqn:Hn; simpl; try done.
  destruct (is_error_status _); simpl; try done.
  destruct (json_body r) as [data|] eqn:Hb; simpl; try done.
  destruct (subscript data _) eqn:Hs; simpl; try done.
  destruct (dict_get _ _ _); simpl; try done.
  destruct (py_int _); simpl; try done.
  destruct (float_add_int _ _); simpl; try done.
  intros [= ->]. by exists r, rest, data.
Qed.

(** And it does return when the endpoint answers with a token and a
    lifetime that [int] and the float addition accept. *)
Lemma refresh_access_token_ok `{Runtime} w resp rest data tok v n f :
  network w = Some resp :: rest →
  is_error_status (status_code resp) = false →
  json_body resp = Some data →
  subscript data "access_token" = Ok tok →
  dict_get data "expires_in" (JInt 3600) = Ok v →
  py_int v = Ok n →
  float_of_int n = Ok f →
  (refresh_access_token w).1 = Ok tok ∧
  cache_file (refresh_access_token w).2 =
    FJson (JObj (<["expires_at" := JFloat (PrimFloat.add (clock w (ticks w)) f)]>
                 (<["access_token" := tok]> ∅))).
Proof.
  intros Hn Hs Hb Ht Hv Hi Hf.
  unfold refresh_access_token, _save_cached_token, float_add_int. unfold_m. simpl.
  rewrite Hn. simpl. rewrite Hs. simpl. rewrite Hb. simpl. rewrite Ht. simpl.
  rewrite Hv. simpl. rewrite Hi. simpl. rewrite Hf. simpl. done.
Qed.

Lemma get_access_token_refresh_or_hit `{Runtime} b w :
  (∃ t, get_access_token b w = (Ok t, set_ticks (S (ticks w)) w))
  ∨ (∃ w1, same_io w w1 ∧ get_access_token b w = refresh_access_token w1).
Proof.
  destruct b.
  - right. by exists w.
  - destruct (fresh_token w) as [t|] eqn:Hf; [destruct (truthy t) eqn:Ht|].
    + left. exists t. by apply get_access_token_hit.
    + right. exists (set_ticks (S (ticks w)) w). split; [done|].
      by apply (get_access_token_falsy w t).
    + right. destruct (get_access_token_miss w Hf) as (w1 & Hio & _ & Hg). eauto.
Qed.

(** C1 (as amended): with [force_refresh] false the call returns the cached
    access token, sending nothing, if and only if the cache file parses to
    an object with both fields, [expires_at - now > SKEW] (SKEW = 30) and
    the cached token is truthy; in every other case it runs one refresh at
    the token endpoint and ends as the refresh ends, the value of a
    successful refresh being the endpoint's [access_token]. *)
Theorem get_access_token_cached_iff `{Runtime} (w : world) :
  let out := get_access_token false w in
  (∀ t, (out.1 = Ok t ∧ trace out.2 = trace w)
        ↔ (fresh_token w = Some t ∧ truthy t = true))
  ∧ ((∃ t, fresh_token w = Some t ∧ truthy t = true ∧
           out = (Ok t, set_ticks (S (ticks w)) w))
     ∨ (∃ w1, same_io w w1 ∧ out = refresh_access_token w1 ∧
              trace out.2 = trace w ++ [EvTokenPost] ∧
              match out.1 with
              | Ok tok => ∃ resp rest data,
                    network w = Some resp :: rest ∧ json_body resp = Some data ∧
                    subscript data "access_token" = Ok tok
              | Raise _ => True
              end)).
Proof.
  intros out.
  assert (Hrefresh : ∀ w1, same_io w w1 → out = refresh_access_token w1 →
            trace out.2 = trace w ++ [EvTokenPost] ∧
            match out.1 with
            | Ok tok => ∃ resp rest data,
                  network w = Some resp :: rest ∧ json_body resp = Some data ∧
                  subscript data "access_token" = Ok tok
            | Raise _ => True
            end).
  { intros w1 (Htr & Hnet & _) ->. split.
    - by rewrite refresh_access_token_trace, Htr.
    - destruct (refresh_access_token w1).1 eqn:Hr; [|done].
      rewrite <- Hnet. by apply refresh_access_token_value. }
  assert (Hcases : (∃ t, fresh_token w = Some t ∧ truthy t = true ∧
                         out = (Ok t, set_ticks (S (ticks w)) w))
                   ∨ (∃ w1, same_io w w1 ∧ out = refresh_access_token w1)).
  { destruct (fresh_token w) as [t|] eqn:Hf.
    - destruct (truthy t) eqn:Ht.
      + left. exists t. subst out. by rewrite (get_access_token_hit w t).
      + right. exists (set_ticks (S (ticks w)) w).
        split; [done|]. by apply (get_access_token_falsy w t).
    - right. destruct (get_access_token_miss w Hf) as (w1 & Hio & _ & Hg). eauto. }
  split.
  - intros t. split.
    + intros [Hv Htr]. destruct Hcases as [(t' & Hf & Ht & Ho) | (w1 & Hio & Ho)].
      * rewrite Ho in Hv. simpl in Hv. by injection Hv as ->.
      * destruct (Hrefresh w1 Hio Ho) as [Htr' _].
        rewrite Htr in Htr'. symmetry in Htr'. by apply snoc_neq in Htr'.
    + intros [Hf Ht]. subst out. by rewrite (get_access_token_hit w t).
  - destruct Hcases as [Hhit | (w1 & Hio & Ho)]; [by left | right].
    exists w1. destruct (Hrefresh w1 Hio Ho). done.
Qed.

(** C1, counterexample: the cache holds an empty token that expires 1000 s
    from now, so [expires_at - now > SKEW]; the call does not return the
    cached token but posts to the token endpoint and returns its token. *)
Lemma get_access_token_empty_cached_token :
  let w := world_at t0 (cache_of (JStr "") t0_plus_1000) [token_response "new" 3600] in
  cached_entry w = Some (JStr "", t0_plus_1000)
  ∧ unexpired t0_plus_1000 (clock w (ticks w)) = true
  ∧ (get_access_token false w).1 = Ok (JStr "new")
  ∧ trace (get_access_token false w).2 = [EvTokenPost].
Proof. vm_compute. done. Qed.

(** The cached token is returned, and nothing is sent, while it has more
    than 30 seconds left; with exactly 30 left the token is renewed. *)
Example get_access_token_cache_hit :
  let out := get_access_token false (world_with_token []) in
  out.1 = Ok (JStr "abc") ∧ trace out.2 = [].
Proof. vm_compute. done. Qed.

Example get_access_token_at_skew :
  let w := world_at (t0 + 970) (cache_of (JStr "abc") t0_plus_1000)
                    [token_response "new" 3600] in
  (get_access_token false w).1 = Ok (JStr "new")
  ∧ trace (get_access_token false w).2 = [EvTokenPost].
Proof. vm_compute. done. Qed.

(** C9: when the cache file is missing, unreadable, not valid JSON, or
    lacks [expires_at] or [access_token], [_load_cached_token] returns
    [None] without raising, and [get_access_token] goes on to the refresh at
    the token endpoint. *)
Theorem load_cached_token_unusable `{Runtime} (w : world) :
  cache_unusable w →
  ∃ w1, _load_cached_token w = (Ok JNull, w1) ∧ same_io w w1 ∧
        get_access_token false w = refresh_access_token w1 ∧
        trace (get_access_token false w).2 = trace w ++ [EvTokenPost].
Proof.
  intros Hu.
  assert (Hf : fresh_token w = None).
  { unfold fresh_token, cached_entry.
    destruct Hu as [-> | [-> | [-> | (m & -> & [-> | ->])]]]; try done.
    by destruct (m !! "access_token"). }
  destruct (get_access_token_miss w Hf) as (w1 & Hio & Hl & Hg).
  exists w1. repeat split; try done; try apply Hio.
  rewrite Hg, refresh_access_token_trace. by destruct Hio as [-> _].
Qed.

(** C9 at a world without a cache file. *)
Lemma load_cached_token_unusable_witness :
  let w := world_at t0 FMissing [token_response "new" 3600] in
  ∃ w1, _load_cached_token w = (Ok JNull, w1) ∧ same_io w w1 ∧
        get_access_token false w = refresh_access_token w1 ∧
        trace (get_access_token false w).2 = trace w ++ [EvTokenPost].
Proof.
  apply (load_cached_token_unusable (world_at t0 FMissing [token_response "new" 3600])).
  left. reflexivity.
Defined.

(** ** The wrapper, one attempt at a time *)

Lemma api_request_loop_cons `{Runtime} a rest method url kw last w :
  api_request_loop (a :: rest) method url kw last w =
  match get_access_token false w with
  | (Raise e, w1) => (Raise e, w1)
  | (Ok token, w1) =>
      let rq := mkRequest ViaApiRequest method url
                  (<["Authorization" := authorization token]> (default ∅ (kw_headers kw)))
                  (kw_params kw) (kw_json kw) in
      match session_send (EvRequest rq) w1 with
      | (Raise e, w2) => (Raise e, w2)
      | (Ok resp, w2) =>
          if negb (status_code resp =? 401)
          then (match checked_json resp with Ok v => Ok (inl v) | Raise e => Raise e end, w2)
          else match get_access_token true w2 with
               | (Raise e, w3) => (Raise e, w3)
               | (Ok _, w3) =>
                   api_request_loop rest method url
                     (mkKwargs None (kw_params kw) (kw_json kw)) (Some resp) w3
               end
      end
  end.
Proof.
  cbn [api_request_loop]. unfold bind at 1.
  destruct (get_access_token false w) as [[token|e] w1]; [|done].
  cbn [kw_params kw_json]. unfold bind at 1.
  destruct (session_send _ w1) as [[resp|e] w2]; [|done].
  destruct (negb _).
  - unfold checked_json, raise_for_status, resp_json, bind, raise, ret.
    destruct (is_error_status _); [done|]. by destruct (json_body resp).
  - unfold bind at 1. by destruct (get_access_token true w2) as [[?|?] ?].
Qed.

Lemma session_send_answered rq resp rest w :
  network w = Some resp :: rest →
  session_send (EvRequest rq) w = (Ok resp, answered rq rest w).
Proof. unfold session_send, answered. simpl. by intros ->. Qed.

Lemma session_send_trace {ev} w : trace (session_send ev w).2 = trace w ++ [ev].
Proof. unfold session_send. simpl. by destruct (network w) as [|[?|] ?]. Qed.

Lemma get_access_token_true_trace `{Runtime} w :
  trace (get_access_token true w).2 = trace w ++ [EvTokenPost].
Proof. apply refresh_access_token_trace. Qed.

Lemma get_access_token_trace `{Runtime} b w :
  ∃ evs, trace (get_access_token b w).2 = trace w ++ evs ∧
         (evs = [] ∨ evs = [EvTokenPost]).
Proof.
  destruct b.
  - exists [EvTokenPost]. split; [apply get_access_token_true_trace | by right].
  - destruct (fresh_token w) as [t|] eqn:Hf; [destruct (truthy t) eqn:Ht|].
    + rewrite (get_access_token_hit w t Hf Ht).
      exists []. split; [by rewrite app_nil_r | by left].
    + rewrite (get_access_token_falsy w t Hf Ht), refresh_access_token_trace.
      exists [EvTokenPost]. split; [done | by right].
    + destruct (get_access_token_miss w Hf) as (w1 & (Htr & _) & _ & ->).
      rewrite refresh_access_token_trace, Htr.
      exists [EvTokenPost]. split; [done | by right].
Qed.

Lemma requests_of_app evs1 evs2 :
  requests_of (evs1 ++ evs2) = requests_of evs1 ++ requests_of evs2.
Proof. apply omap_app. Qed.

Lemma events_since_app w w' evs :
  trace w' = trace w ++ evs → events_since w w' = evs.
Proof. unfold events_since. intros ->. by rewrite drop_app_length. Qed.

Lemma wrapper_event_token method url : wrapper_event method url EvTokenPost.
Proof. by left. Qed.

Lemma token_events_wrapper method url evs :
  evs = [] ∨ evs = [EvTokenPost] →
  Forall (wrapper_event method url) evs ∧ requests_of evs = [].
Proof.
  intros [-> | ->]; split; try done.
  apply Forall_singleton, wrapper_event_token.
Qed.

(** The loop sends at most one request per attempt, each through the
    wrapper's route with an [Authorization] header. *)
Lemma api_request_loop_trace `{Runtime} attempts method url : ∀ kw last w,
  ∃ evs, trace (api_request_loop attempts method url kw last w).2 = trace w ++ evs ∧
         Forall (wrapper_event method url) evs ∧
         (length (requests_of evs) ≤ length attempts)%nat.
Proof.
  induction attempts as [|a rest IH]; intros kw last w.
  { exists []. simpl. rewrite app_nil_r. split; [done|]. split; [constructor | done]. }
  rewrite api_request_loop_cons.
  destruct (get_access_token_trace false w) as (evs0 & Htr0 & Hevs0).
  destruct (token_events_wrapper method url _ Hevs0) as [Hall0 Hreq0].
  destruct (get_access_token false w) as [[token|e] w1]; simpl in Htr0.
  2:{ exists evs0. simpl. rewrite Hreq0. split; [done|]. split; [done | simpl; lia]. }
  cbv zeta.
  set (rq := mkRequest _ _ _ _ _ _).
  assert (Hrq : wrapper_event method url (EvRequest rq)).
  { right. exists rq. repeat split. subst rq. simpl.
    rewrite lookup_insert_eq. by eexists. }
  pose proof (session_send_trace (ev:=EvRequest rq) w1) as Htr1.
  destruct (session_send _ w1) as [[resp|e] w2]; simpl in Htr1.
  2:{ exists (evs0 ++ [EvRequest rq]). simpl.
      rewrite Htr1, Htr0, <- app_assoc, requests_of_app, Hreq0.
      split; [done|]. split; [|simpl; lia].
      apply Forall_app. split; [done|]. by apply Forall_singleton. }
  destruct (negb _).
  { exists (evs0 ++ [EvRequest rq]). simpl.
    rewrite Htr1, Htr0, <- app_assoc, requests_of_app, Hreq0.
    split; [done|]. split; [|simpl; lia].
    apply Forall_app. split; [done|]. by apply Forall_singleton. }
  pose proof (get_access_token_true_trace w2) as Htr2.
  destruct (get_access_token true w2) as [[?|e] w3]; simpl in Htr2.
  2:{ exists (evs0 ++ [EvRequest rq; EvTokenPost]). simpl.
      rewrite Htr2, Htr1, Htr0, <- !app_assoc, requests_of_app, Hreq0.
      split; [done|]. split; [|simpl; lia].
      apply Forall_app. split; [done|].
      constructor; [done|]. apply Forall_singleton, wrapper_event_token. }
  destruct (IH (mkKwargs None (kw_params kw) (kw_json kw)) (Some resp) w3)
    as (evs3 & Htr3 & Hall3 & Hlen3).
  exists (evs0 ++ [EvRequest rq; EvTokenPost] ++ evs3).
  rewrite Htr3, Htr2, Htr1, Htr0, <- !app_assoc, !requests_of_app, Hreq0.
  split; [done|]. split; [|simpl; lia].
  apply Forall_app. split; [done|].
  apply Forall_app. split; [|done].
  constructor; [done|]. apply Forall_singleton, wrapper_event_token.
Qed.

Lemma api_request_unfold `{Runtime} method endpoint kw w :
  api_request method endpoint kw w =
  match api_request_loop [0%nat; 1%nat] method (API_DOMAIN +:+ endpoint) kw None w with
  | (Ok (inl v), w') => (Ok v, w')
  | (Ok (inr (Some resp)), w') =>
      (if is_error_status (status_code resp)
       then Raise (HTTPError (status_code resp)) else Ok JNull, w')
  | (Ok (inr None), w') => (Raise NameError, w')
  | (Raise e, w') => (Raise e, w')
  end.
Proof.
  unfold api_request. cbv zeta. unfold bind at 1.
  destruct (api_request_loop _ _ _ _ _ _) as [[[v|[resp|]]|e] w']; try done.
  unfold raise_for_status, bind, raise, ret. by destruct (is_error_status _).
Qed.

Lemma api_request_trace `{Runtime} method endpoint kw w :
  ∃ evs, trace (api_request method endpoint kw w).2 = trace w ++ evs ∧
         Forall (wrapper_event method (API_DOMAIN +:+ endpoint)) evs ∧
         (length (requests_of evs) ≤ 2)%nat.
Proof.
  rewrite api_request_unfold.
  destruct (api_request_loop_trace [0%nat; 1%nat] method (API_DOMAIN +:+ endpoint) kw None w)
    as (evs & Htr & Hall & Hlen).
  exists evs.
  destruct (api_request_loop _ _ _ _ _ _) as [[[v|[resp|]]|e] w']; done.
Qed.

Lemma api_request_loop_calls `{Runtime} attempts method url : ∀ kw last w,
  ∃ evs, trace (api_request_loop attempts method url kw last w).2 = trace w ++ evs ∧
         Forall (same_call method url kw) (requests_of evs).
Proof.
  induction attempts as [|a rest IH]; intros kw last w.
  { exists []. simpl. rewrite app_nil_r. split; [done | constructor]. }
  rewrite api_request_loop_cons.
  destruct (get_access_token_trace false w) as (evs0 & Htr0 & Hevs0).
  assert (Hreq0 : requests_of evs0 = []) by (by destruct Hevs0 as [-> | ->]).
  destruct (get_access_token false w) as [[token|e] w1]; simpl in Htr0.
  2:{ exists evs0. simpl. rewrite Hreq0. split; [done | constructor]. }
  cbv zeta.
  set (rq := mkRequest _ _ _ _ _ _).
  assert (Hrq : same_call method url kw rq).
  { repeat split. subst rq. simpl. rewrite lookup_insert_eq. by eexists. }
  pose proof (session_send_trace (ev:=EvRequest rq) w1) as Htr1.
  destruct (session_send _ w1) as [[resp|e] w2]; simpl in Htr1.
  2:{ exists (evs0 ++ [EvRequest rq]). simpl.
      rewrite Htr1, Htr0, <- app_assoc, requests_of_app, Hreq0.
      split; [done|]. by apply Forall_singleton. }
  destruct (negb _).
  { exists (evs0 ++ [EvRequest rq]). simpl.
    rewrite Htr1, Htr0, <- app_assoc, requests_of_app, Hreq0.
    split; [done|]. by apply Forall_singleton. }
  pose proof (get_access_token_true_trace w2) as Htr2.
  destruct (get_access_token true w2) as [[?|e] w3]; simpl in Htr2.
  2:{ exists (evs0 ++ [EvRequest rq; EvTokenPost]). simpl.
      rewrite Htr2, Htr1, Htr0, <- !app_assoc, requests_of_app, Hreq0.
      split; [done|]. by apply Forall_singleton. }
  destruct (IH (mkKwargs None (kw_params kw) (kw_json kw)) (Some resp) w3)
    as (evs3 & Htr3 & Hall3).
  exists (evs0 ++ [EvRequest rq; EvTokenPost] ++ evs3).
  rewrite Htr3, Htr2, Htr1, Htr0, <- !app_assoc, !requests_of_app, Hreq0.
  split; [done|]. simpl. constructor; [done|]. exact Hall3.
Qed.

(** C2 (as amended): an answer other than 401 ends [api_request] at once,
    with no retry: an [HTTPError] when its status is 4xx or 5xx, else
    [resp.json()].  On a 401 it forces a token refresh and retries once,
    with the headers the caller passed dropped; after a second 401 it forces
    a refresh again and raises [HTTPError 401].  An exception of a token
    call is surfaced as it is, and no call sends more than two requests. *)
Theorem api_request_retry_policy `{Runtime} (method endpoint : string) (kw : kwargs)
    (w : world) :
  let out := api_request method endpoint kw w in
  (length (requests_of (events_since w out.2)) ≤ 2)%nat
  ∧ ∀ token w1 resp rest,
      get_access_token false w = (Ok token, w1) →
      network w1 = Some resp :: rest →
      let w2 := answered (api_call method endpoint (default ∅ (kw_headers kw)) kw token)
                         rest w1 in
      (status_code resp ≠ 401 → out = (checked_json resp, w2))
      ∧ (status_code resp = 401 →
         match get_access_token true w2 with
         | (Raise e, w3) => out = (Raise e, w3)
         | (Ok _, w3) =>
             trace w3 = trace w2 ++ [EvTokenPost] ∧
             match get_access_token false w3 with
             | (Raise e, w4) => out = (Raise e, w4)
             | (Ok token2, w4) =>
                 ∀ resp2 rest2,
                   network w4 = Some resp2 :: rest2 →
                   let w5 := answered (api_call method endpoint ∅ kw token2) rest2 w4 in
                   (status_code resp2 ≠ 401 → out = (checked_json resp2, w5))
                   ∧ (status_code resp2 = 401 →
                      match get_access_token true w5 with
                      | (Raise e, w6) => out = (Raise e, w6)
                      | (Ok _, w6) =>
                          trace w6 = trace w5 ++ [EvTokenPost] ∧
                          out = (Raise (HTTPError 401), w6)
                      end)
             end
         end).
Proof.
  intros out. split.
  { subst out. destruct (api_request_trace method endpoint kw w) as (evs & Htr & _ & Hlen).
    by rewrite (events_since_app _ _ _ Htr). }
  intros token w1 resp rest Htok Hnet w2. subst out.
  rewrite api_request_unfold, api_request_loop_cons, Htok. cbv zeta.
  rewrite (session_send_answered _ resp rest w1 Hnet).
  fold (api_call method endpoint (default ∅ (kw_headers kw)) kw token). fold w2.
  split.
  - intros Hne. apply Z.eqb_neq in Hne. rewrite Hne. cbn [negb].
    by destruct (checked_json resp).
  - intros Heq. rewrite Heq. cbn [Z.eqb Pos.eqb negb].
    pose proof (get_access_token_true_trace w2) as Htr2.
    destruct (get_access_token true w2) as [[?|e] w3]; [|done].
    simpl in Htr2. split; [done|].
    rewrite api_request_loop_cons.
    destruct (get_access_token false w3) as [[token2|e] w4]; [|done].
    intros resp2 rest2 Hnet2. cbv zeta. cbn [kw_headers kw_params kw_json default].
    rewrite (session_send_answered _ resp2 rest2 w4 Hnet2).
    change (mkRequest ViaApiRequest method (API_DOMAIN +:+ endpoint)
              (<["Authorization":=authorization token2]> ∅) (kw_params kw) (kw_json kw))
      with (api_call method endpoint ∅ kw token2).
    split.
    + intros Hne. apply Z.eqb_neq in Hne. rewrite Hne. cbn [negb].
      by destruct (checked_json resp2).
    + intros Heq2. rewrite Heq2. cbn [Z.eqb Pos.eqb negb].
      set (w5 := answered _ rest2 w4).
      pose proof (get_access_token_true_trace w5) as Htr5.
      destruct (get_access_token true w5) as [[?|e] w6]; [|done].
      simpl in Htr5. split; [done|]. simpl. by rewrite Heq2.
Qed.

(** C2 at a 500 answer: raised at once, one request sent. *)
Lemma api_request_retry_policy_witness :
  let w := world_with_token [status_only 500] in
  api_request "GET" "/x" no_kwargs w =
    (Raise (HTTPError 500),
     answered (api_call "GET" "/x" ∅ no_kwargs (JStr "abc")) [] (set_ticks 1 w)).
Proof.
  intros w.
  destruct (api_request_retry_policy "GET" "/x" no_kwargs w) as [_ Hpol].
  destruct (Hpol (JStr "abc") (set_ticks 1 w) (mkResponse 500 None "") []
              ltac:(vm_compute; reflexivity) ltac:(reflexivity)) as [Hne _].
  apply Hne. simpl. lia.
Defined.

(** C2, counterexample: a 300 answer with a JSON body is neither 2xx nor
    401, yet [api_request] raises nothing: it returns the body. *)
Lemma api_request_returns_on_300 :
  let w := world_with_token [Some (mkResponse 300 (Some (JArr [])) "")] in
  ¬ (200 ≤ 300 < 300)
  ∧ (api_request "GET" "/x" no_kwargs w).1 = Ok (JArr [])
  ∧ length (requests_of (trace (api_request "GET" "/x" no_kwargs w).2)) = 1%nat.
Proof. split; [lia|]. vm_compute. done. Qed.

(** Two 401 answers in a row: two requests, a forced refresh after each,
    and the 401 surfaces. *)
Example api_request_two_401 :
  let w := world_with_token [status_only 401; token_response "t1" 3600;
                             status_only 401; token_response "t2" 3600] in
  (api_request "GET" "/x" no_kwargs w).1 = Raise (HTTPError 401)
  ∧ map is_token_post (trace (api_request "GET" "/x" no_kwargs w).2)
    = [false; true; false; true].
Proof. vm_compute. done. Qed.

(** ** The delete loop *)

Lemma delete_loop_cons `{Runtime} module headers batch rest total w :
  delete_loop module headers (batch :: rest) total w =
  match join_ids batch with
  | Raise e => ((Raise e, total), w)
  | Ok ids_str =>
      match session_send (EvRequest (delete_call module headers ids_str)) w with
      | (Raise e, w1) => ((Raise e, total), w1)
      | (Ok resp, w1) =>
          if is_error_status (status_code resp)
          then ((Raise (HTTPError (status_code resp)), total), w1)
          else delete_loop module headers rest (total + Z.of_nat (length batch)) w1
      end
  end.
Proof.
  cbn [delete_loop]. destruct (join_ids batch); [|done].
  fold (delete_call module headers a).
  destruct (session_send _ w) as [[resp|e] w1]; [|done].
  unfold raise_for_status, raise, ret. by destruct (is_error_status _).
Qed.

(** Batches answered without an error status are passed over, their sizes
    added to [total_deleted]. *)
Lemma delete_loop_pass `{Runtime} module headers pre : ∀ strs resps post total w net,
  joined pre strs →
  length resps = length pre →
  Forall (λ r, is_error_status (status_code r) = false) resps →
  network w = map Some resps ++ net →
  ∃ w', delete_loop module headers (pre ++ post) total w =
          delete_loop module headers post (total + Z.of_nat (length (concat pre))) w'
        ∧ trace w' = trace w ++ map (λ s, EvRequest (delete_call module headers s)) strs
        ∧ network w' = net.
Proof.
  induction pre as [|batch pre IH]; intros strs resps post total w net Hj Hlen Hok Hnet.
  - apply Forall2_nil_inv_l in Hj as ->. destruct resps; [|done].
    exists w. simpl. by rewrite Z.add_0_r, app_nil_r.
  - apply Forall2_cons_inv_l in Hj as (s & strs' & Hs & Hj & ->).
    destruct resps as [|resp resps]; [done|].
    apply Forall_cons in Hok as [Hresp Hok]. simpl in Hlen, Hnet.
    rewrite <- app_comm_cons, delete_loop_cons, Hs.
    rewrite (session_send_answered _ resp (map Some resps ++ net) w Hnet), Hresp.
    destruct (IH strs' resps post (total + Z.of_nat (length batch))
                 (answered (delete_call module headers s) (map Some resps ++ net) w) net)
      as (w' & Hrun & Htr & Hnet'); [done | lia | done | done |].
    exists w'. rewrite Hrun. split; [|split; [|done]].
    + f_equal. cbn [concat]. rewrite length_app. lia.
    + rewrite Htr. simpl. by rewrite <- app_assoc.
Qed.

(** Whatever the answers: the calls sent are those of a prefix of the
    batches, in order, and a run that ends well has sent them all. *)
Lemma delete_loop_trace `{Runtime} module headers batches : ∀ total w,
  let out := delete_loop module headers batches total w in
  ∃ n strs, joined (take n batches) strs
            ∧ trace out.2 = trace w ++ map (λ s, EvRequest (delete_call module headers s)) strs
            ∧ (out.1.1 = Ok tt →
               n = length batches ∧ out.1.2 = total + Z.of_nat (length (concat batches))).
Proof.
  induction batches as [|batch rest IH]; intros total w out; subst out.
  { exists 0%nat, []. simpl. rewrite app_nil_r, Z.add_0_r.
    split; [constructor | done]. }
  rewrite delete_loop_cons.
  destruct (join_ids batch) as [s|e] eqn:Hs.
  2:{ exists 0%nat, []. simpl. rewrite app_nil_r. split; [constructor | done]. }
  pose proof (session_send_trace (ev:=EvRequest (delete_call module headers s)) w) as Htr.
  destruct (session_send _ w) as [[resp|e] w1]; simpl in Htr.
  2:{ exists 1%nat, [s]. simpl. rewrite take_0.
      split; [repeat constructor; done | done]. }
  destruct (is_error_status _).
  { exists 1%nat, [s]. simpl. rewrite take_0.
    split; [repeat constructor; done | done]. }
  destruct (IH (total + Z.of_nat (length batch)) w1) as (n & strs & Hj & Htr' & Hok).
  exists (S n), (s :: strs). split; [by constructor|]. split.
  - rewrite Htr', Htr. simpl. by rewrite <- app_assoc.
  - intros Hout. destruct (Hok Hout) as [-> ->]. split; [done|].
    cbn [concat]. rewrite length_app. lia.
Qed.

Lemma requests_of_map (rqs : list request) :
  requests_of (map EvRequest rqs) = rqs.
Proof.
  induction rqs as [|rq rqs IH]; [done|].
  change (requests_of (map EvRequest (rq :: rqs)))
    with (rq :: requests_of (map EvRequest rqs)).
  by rewrite IH.
Qed.

Lemma read_id_column_world file_path w :
  (read_id_column file_path w).2 = w.
Proof.
  unfold read_id_column. destruct (csv_files w !! file_path) as [[|fieldnames rows]|]; try done.
  by case_bool_decide.
Qed.

Lemma delete_batch_from_file_unfold `{Runtime} module file_path w ids token w1 :
  read_id_column file_path w = (Ok ids, w) →
  get_access_token false w = (Ok token, w1) →
  delete_batch_from_file module file_path w =
    delete_loop module (<["Authorization" := authorization token]> ∅) (chunked 100 ids) 0 w1.
Proof. unfold delete_batch_from_file. by intros -> ->. Qed.

(** C4 (as amended): when the DELETE for chunk [k] is answered with a 4xx
    or 5xx status (the chunks before it were not), [delete_batch_from_file]
    raises that [HTTPError]; the calls it has sent are those for chunks
    [0..k] and no other, the answers that follow stay unread, and
    [total_deleted] is the total size of the chunks before [k]. *)
Theorem delete_batch_halts_at_failure `{Runtime} (module file_path : string) (w w1 : world)
    (ids : list (option string)) (token : json)
    (pre post : list (list (option string))) (batch : list (option string))
    (strs : list string) (s : string)
    (resps : list response) (resp : response) (rest : list (option response)) :
  read_id_column file_path w = (Ok ids, w) →
  get_access_token false w = (Ok token, w1) →
  chunked 100 ids = pre ++ batch :: post →
  joined pre strs → join_ids batch = Ok s →
  network w1 = map Some resps ++ Some resp :: rest →
  length resps = length pre →
  Forall (λ r, is_error_status (status_code r) = false) resps →
  is_error_status (status_code resp) = true →
  let out := delete_batch_from_file module file_path w in
  let headers := <["Authorization" := authorization token]> ∅ in
  out.1 = (Raise (HTTPError (status_code resp)), Z.of_nat (length (concat pre)))
  ∧ requests_of (events_since w1 out.2) = map (delete_call module headers) (strs ++ [s])
  ∧ network out.2 = rest.
Proof.
  intros Hread Htok Hchunks Hj Hs Hnet Hlen Hok Herr out headers. subst out.
  rewrite (delete_batch_from_file_unfold _ _ _ _ _ _ Hread Htok), Hchunks. fold headers.
  destruct (delete_loop_pass module headers pre strs resps (batch :: post) 0 w1
              (Some resp :: rest) Hj Hlen Hok Hnet) as (w' & -> & Htr & Hnet').
  rewrite delete_loop_cons, Hs, (session_send_answered _ resp rest w' Hnet'), Herr.
  cbn [fst snd]. split; [done|]. split; [|done].
  rewrite (events_since_app w1 _
             (map (λ s, EvRequest (delete_call module headers s)) (strs ++ [s]))).
  - rewrite <- (requests_of_map (map (delete_call module headers) (strs ++ [s]))).
    by rewrite map_map.
  - simpl. rewrite Htr, map_app, <- app_assoc. done.
Qed.

(** C4 at a file of 250 identifiers, three chunks, answered 200, 500 and
    200: the first chunk is deleted, the second fails, the third is never
    sent and its answer stays unread. *)
Lemma delete_batch_halts_at_failure_witness :
  let w := world_with_csv (csv_of_size 250)
             [status_only 200; status_only 500; status_only 200] in
  let out := delete_batch_from_file "Tasks" "ids.csv" w in
  let hundred := String.concat "," (replicate 100 "7") in
  out.1 = (Raise (HTTPError 500), 100)
  ∧ requests_of (events_since (set_ticks 1 w) out.2)
    = map (delete_call "Tasks" (<["Authorization" := authorization (JStr "abc")]> ∅))
          ([hundred] ++ [hundred])
  ∧ network out.2 = [status_only 200].
Proof.
  intros w out hundred.
  apply (delete_batch_halts_at_failure "Tasks" "ids.csv" w (set_ticks 1 w)
           (replicate 250 (Some "7")) (JStr "abc")
           [replicate 100 (Some "7")] [replicate 50 (Some "7")] (replicate 100 (Some "7"))
           [hundred] hundred
           [mkResponse 200 None ""] (mkResponse 500 None "") [status_only 200]).
  - vm_compute; reflexivity.
  - vm_compute; reflexivity.
  - vm_compute; reflexivity.
  - constructor; [vm_compute; reflexivity | constructor].
  - vm_compute; reflexivity.
  - vm_compute; reflexivity.
  - reflexivity.
  - constructor; [reflexivity | constructor].
  - reflexivity.
Defined.

(** C4, counterexample: the first of two chunks is answered 300, which is
    not 2xx; nothing is raised, the second chunk is deleted as well and the
    run ends with all 101 counted. *)
Lemma delete_batch_goes_on_after_300 :
  let w := world_with_csv (csv_of_size 101)
             [Some (mkResponse 300 None ""); status_only 200] in
  let out := delete_batch_from_file "Tasks" "ids.csv" w in
  ¬ (200 ≤ 300 < 300)
  ∧ out.1 = (Ok tt, 101)
  ∧ length (requests_of (trace out.2)) = 2%nat.
Proof. split; [lia|]. vm_compute. done. Qed.

(** The second of two chunks is answered 500: one hundred are counted. *)
Example delete_batch_second_chunk_fails :
  let w := world_with_csv (csv_of_size 101) [status_only 200; status_only 500] in
  (delete_batch_from_file "Tasks" "ids.csv" w).1 = (Raise (HTTPError 500), 100).
Proof. vm_compute. done. Qed.

(** ** Reading the identifier column *)

Lemma zip_fold_lookup_notin (k : string) : ∀ fieldnames row (m : gmap string (option string)),
  k ∉ fieldnames →
  foldl (λ m kv, <[kv.1 := Some kv.2]> m) m (zip fieldnames row) !! k = m !! k.
Proof.
  induction fieldnames as [|f fs IH]; intros [|r rs] m Hk; try done.
  apply not_elem_of_cons in Hk as [Hne Hk]. simpl.
  rewrite IH by done. by rewrite lookup_insert_ne.
Qed.

Lemma fill_fold_lookup (k : string) : ∀ ks (m : gmap string (option string)),
  foldl (λ m k', <[k' := None]> m) m ks !! k
  = if decide (k ∈ ks) then Some None else m !! k.
Proof.
  induction ks as [|k' ks IH]; intros m; cbn [foldl].
  - rewrite decide_False; [done | apply not_elem_of_nil].
  - rewrite IH. destruct (decide (k ∈ ks)) as [Hin|Hnin].
    + rewrite decide_True; [done | by right].
    + destruct (decide (k' = k)) as [->|Hne].
      * rewrite decide_True by left. by rewrite lookup_insert_eq.
      * rewrite decide_False, lookup_insert_ne; [done | done |].
        intros [?|?]%elem_of_cons; congruence.
Qed.

Lemma zip_fold_lookup_last (k : string) : ∀ fieldnames row (m : gmap string (option string)) i v,
  fieldnames !! i = Some k →
  (∀ j, (i < j)%nat → fieldnames !! j ≠ Some k) →
  row !! i = Some v →
  foldl (λ m kv, <[kv.1 := Some kv.2]> m) m (zip fieldnames row) !! k = Some (Some v).
Proof.
  induction fieldnames as [|f fs IH]; intros [|r rs] m i v Hi Hlast Hv; try done.
  cbn [zip zip_with foldl]. destruct i as [|i].
  - injection Hi as ->. injection Hv as ->. rewrite zip_fold_lookup_notin.
    + cbn [fst snd]. by rewrite lookup_insert_eq.
    + intros [j Hj]%list_elem_of_lookup. by apply (Hlast (S j) ltac:(lia)).
  - apply (IH rs _ i v); [done | | done].
    intros j Hj. apply (Hlast (S j)). lia.
Qed.

Lemma row_Id_last fieldnames row i :
  fieldnames !! i = Some "Id" →
  (∀ j, (i < j)%nat → fieldnames !! j ≠ Some "Id") →
  row_Id fieldnames row = Ok (row !! i).
Proof.
  intros Hi Hlast. unfold row_Id, dict_reader_row. rewrite fill_fold_lookup.
  destruct (row !! i) as [v|] eqn:Hv.
  - rewrite decide_False.
    + by rewrite (zip_fold_lookup_last "Id" fieldnames row ∅ i v).
    + intros [j Hj]%list_elem_of_lookup. rewrite lookup_drop in Hj.
      apply lookup_lt_Some in Hv. by apply (Hlast (length row + j)%nat ltac:(lia)).
  - rewrite decide_True; [done|].
    apply list_elem_of_lookup. exists (i - length row)%nat.
    rewrite lookup_drop. apply lookup_ge_None in Hv.
    by replace (length row + (i - length row))%nat with i by lia.
Qed.

Lemma chunked_map {A B} (f : A → B) n (l : list A) :
  chunked (S n) (map f l) = map (map f) (chunked (S n) l).
Proof.
  remember (length l) as m eqn:Hm. revert l Hm.
  induction m as [m IH] using lt_wf_ind. intros [|x l] ->.
  - cbn [map]. by rewrite !chunked_nil.
  - change (map f (x :: l)) with (f x :: map f l) at 1. rewrite !chunked_step.
    change (f x :: map f l) with (map f (x :: l)).
    rewrite firstn_map, skipn_map. cbn [map]. f_equal.
    apply (IH (length (drop (S n) (x :: l)))); [|done].
    rewrite length_drop. cbn [length]. lia.
Qed.


Lemma read_id_column_accepts file_path w fieldnames rows :
  csv_files w !! file_path = Some (fieldnames :: rows) →
  "Id" ∈ fieldnames →
  read_id_column file_path w = (read_ids fieldnames (reader_rows rows), w).
Proof.
  intros Hcsv Hin. unfold read_id_column. rewrite Hcsv.
  by rewrite bool_decide_eq_true_2.
Qed.





(** ** The exceptions of a batch delete *)








(** A file without any row has no header at all: [reader.fieldnames] is
    [None] and the membership test itself raises [TypeError]. *)
Example delete_batch_empty_file :
  let w := world_with_csv [] [status_only 200] in
  delete_batch_from_file "Tasks" "ids.csv" w = ((Raise TypeError, 0), w).
Proof. vm_compute. done. Qed.

(** A row too short to have the [Id] cell yields [None], which [join]
    refuses before the DELETE is sent. *)
Example delete_batch_short_row :
  let w := world_with_csv [["Name"; "Id"]; ["x"]] [status_only 200] in
  (delete_batch_from_file "Tasks" "ids.csv" w).1 = (Raise TypeError, 0)
  ∧ requests_of (trace (delete_batch_from_file "Tasks" "ids.csv" w).2) = [].
Proof. vm_compute. done. Qed.

(** A header that spells the column "id" is refused before anything is sent. *)
Example delete_batch_lowercase_id :
  let w := world_with_csv [["id"]; ["7"]] [status_only 200] in
  delete_batch_from_file "Tasks" "ids.csv" w = ((Raise missing_Id, 0), w).
Proof. vm_compute. done. Qed.

(** ** Polling *)

Lemma check_job_status_body_poll `{Runtime} job_id w :
  check_job_status_body job_id w =
  match poll job_id w with
  | (Raise e, w1) => (Raise e, w1)
  | (Ok (job, state), w1) =>
      if terminal state
      then (match verdict job state with Ok r => Ok (Return r) | Raise e => Raise e end, w1)
      else (Ok Continue, emit (EvSleep 5) w1)
  end.
Proof.
  unfold check_job_status_body, poll, terminal, verdict.
  unfold bind, lift, ret, raise, time_sleep.
  destruct (api_request _ _ _ w) as [[res|e] w1]; [|done].
  destruct (subscript res "data") as [data|e]; [|done].
  destruct (subscript0 data) as [job|e]; [|done].
  destruct (subscript job "state") as [state|e]; [|done].
  destruct (eq_str state "COMPLETED"); cbn [orb].
  - by destruct (subscript job "result").
  - by destruct (eq_str state "FAILURE" || eq_str state "FAILED").
Qed.

Lemma while_true_S {A} fuel (body : M (step A)) w :
  while_true (S fuel) body w =
  match body w with
  | (Ok (Return a), w') => Some (Ok a, w')
  | (Ok Continue, w') => while_true fuel body w'
  | (Raise e, w') => Some (Raise e, w')
  end.
Proof. done. Qed.

Lemma poll_trace `{Runtime} job_id w :
  ∃ evs, trace (poll job_id w).2 = trace w ++ evs ∧
         Forall (wrapper_event "GET" (API_DOMAIN +:+ job_url job_id)) evs ∧
         (length (requests_of evs) ≤ 2)%nat.
Proof.
  destruct (api_request_trace "GET" (job_url job_id) no_kwargs w) as (evs & Htr & Hall).
  exists evs. split; [|done]. rewrite <- Htr. unfold poll, bind, lift, ret.
  destruct (api_request _ _ _ w) as [[res|e] w1]; [|done].
  destruct (subscript res "data") as [data|e]; [|done].
  destruct (subscript0 data) as [job|e]; [|done].
  by destruct (subscript job "state").
Qed.

Lemma wrapper_event_not_sleep method url e : wrapper_event method url e → is_sleep e = false.
Proof. by intros [-> | (rq & -> & _)]. Qed.

Lemma filter_sleep_wrapper method url evs :
  Forall (wrapper_event method url) evs → filter is_sleep evs = [].
Proof.
  induction 1 as [|e evs He _ IH]; [done|].
  rewrite filter_cons_False, IH; [done|].
  rewrite (wrapper_event_not_sleep _ _ _ He). by intros [].
Qed.

Lemma nth_poll_trace `{Runtime} job_id k : ∀ w,
  ∃ evs, trace (nth_poll job_id k w).2 = trace w ++ evs.
Proof.
  unfold nth_poll. induction k as [|k IHk]; intros w.
  - destruct (poll_trace job_id w) as (e1 & He1 & _). by exists e1.
  - cbn [world_at_poll].
    destruct (IHk (emit (EvSleep 5) (poll job_id w).2)) as (e2 & He2).
    destruct (poll_trace job_id w) as (e1 & He1 & _).
    exists (e1 ++ [EvSleep 5] ++ e2). rewrite He2. simpl.
    by rewrite He1, <- !app_assoc.
Qed.

(** C6: when the polls before number [k] return non-terminal states and
    poll [k] returns a terminal one, [check_job_status] terminates at that
    poll (any fuel above [k] is enough, and no run stops earlier): it returns
    the job's [result] if the state is COMPLETED and raises [RuntimeError] if
    it is FAILURE or FAILED, having slept 5 seconds after each of the [k]
    polls before and not otherwise. *)
Theorem check_job_status_first_terminal `{Runtime} (job_id : string) (w : world) (k : nat)
    (job state : json) :
  (∀ i, (i < k)%nat →
        ∃ job_i state_i, (nth_poll job_id i w).1 = Ok (job_i, state_i) ∧
                         terminal state_i = false) →
  (nth_poll job_id k w).1 = Ok (job, state) →
  terminal state = true →
  let w' := (nth_poll job_id k w).2 in
  (∀ fuel, (k < fuel)%nat → check_job_status fuel job_id w = Some (verdict job state, w'))
  ∧ (∀ fuel, (fuel ≤ k)%nat → check_job_status fuel job_id w = None)
  ∧ filter is_sleep (events_since w w') = replicate k (EvSleep 5).
Proof.
  revert w. induction k as [|k IH]; intros w Hbefore Hk Hterm w'; subst w'.
  - unfold nth_poll in *. cbn [world_at_poll] in *.
    split; [|split].
    + intros [|fuel] Hlt; [lia|]. unfold check_job_status.
      rewrite while_true_S, check_job_status_body_poll.
      destruct (poll job_id w) as [[[j s]|e] w1]; [|done].
      simpl in Hk. injection Hk as -> ->. rewrite Hterm.
      by destruct (verdict job state).
    + intros fuel Hle. by replace fuel with 0%nat by lia.
    + destruct (poll_trace job_id w) as (evs & Htr & Hall & _).
      rewrite (events_since_app _ _ _ Htr). by apply filter_sleep_wrapper in Hall.
  - destruct (Hbefore 0%nat ltac:(lia)) as (job0 & state0 & Hp0 & Ht0).
    unfold nth_poll in Hp0. cbn [world_at_poll] in Hp0.
    set (w1 := emit (EvSleep 5) (poll job_id w).2).
    assert (Hstep : ∀ fuel, check_job_status (S fuel) job_id w = check_job_status fuel job_id w1).
    { intros fuel. unfold check_job_status. rewrite while_true_S, check_job_status_body_poll.
      subst w1. destruct (poll job_id w) as [[[j s]|e] w0]; [|done].
      simpl in Hp0. injection Hp0 as -> ->. by rewrite Ht0. }
    destruct (IH w1) as (Hrun & Hearly & Hsleeps).
    { intros i Hi. apply (Hbefore (S i)). lia. }
    { exact Hk. }
    { exact Hterm. }
    change (nth_poll job_id (S k) w) with (nth_poll job_id k w1).
    split; [|split].
    + intros [|fuel] Hlt; [lia|]. rewrite Hstep. apply Hrun. lia.
    + intros [|fuel] Hle; [done|]. rewrite Hstep. apply Hearly. lia.
    + destruct (poll_trace job_id w) as (evs & Htr & Hall & _).
      assert (Htr1 : trace w1 = trace w ++ evs ++ [EvSleep 5]).
      { subst w1. simpl. by rewrite Htr, <- app_assoc. }
      destruct (nth_poll_trace job_id k w1) as (evs2 & Hext).
      unfold events_since in *. rewrite Hext, drop_app_length in Hsleeps.
      rewrite Hext, Htr1, <- !app_assoc, drop_app_length.
      rewrite !filter_app, (filter_sleep_wrapper _ _ _ Hall), Hsleeps. done.
Qed.

(** C6 at a job seen queued, then in progress, then completed. *)
Lemma check_job_status_first_terminal_witness :
  (∀ fuel, (2 < fuel)%nat →
     check_job_status fuel "42" polling_world
     = Some (verdict completed_job (JStr "COMPLETED"), (nth_poll "42" 2 polling_world).2))
  ∧ (∀ fuel, (fuel ≤ 2)%nat → check_job_status fuel "42" polling_world = None)
  ∧ filter is_sleep (events_since polling_world (nth_poll "42" 2 polling_world).2)
    = replicate 2 (EvSleep 5).
Proof.
  apply (check_job_status_first_terminal "42" polling_world 2 completed_job
           (JStr "COMPLETED")).
  - intros [|[|i]] Hi; [| |lia].
    + eexists _, _. split; [vm_compute; reflexivity | reflexivity].
    + eexists _, _. split; [vm_compute; reflexivity | reflexivity].
  - vm_compute. reflexivity.
  - reflexivity.
Defined.

(** The same run, evaluated: the result comes back at the third poll. *)
Example check_job_status_three_polls :
  fst <$> check_job_status 3 "42" polling_world = Some (Ok (obj [("page", JInt 1)]))
  ∧ check_job_status 2 "42" polling_world = None.
Proof. vm_compute. done. Qed.

(** A FAILED state raises at once. *)
Example check_job_status_failed :
  fst <$> check_job_status 1 "42" (world_with_token [job_answer [("state", JStr "FAILED")]])
  = Some (Raise (RuntimeError "Bulk read job falló")).
Proof. vm_compute. done. Qed.

(** ** Job creation *)

Lemma job_record_lookup_name (name : string) id module_name m :
  job_record (Some name) id module_name = JObj m →
  m !! "name" = if decide (name = "name") then Some (JStr name) else None.
Proof.
  unfold job_record. intros [= <-].
  rewrite lookup_insert_ne, lookup_insert_ne by done.
  case_decide as Hn.
  - subst. by rewrite lookup_insert_eq.
  - by rewrite lookup_insert_ne.
Qed.

(** The history keeps what it held and gains the new record at its end. *)
Lemma create_bulk_read_job_appends `{Runtime} module_name name w res w1 id l :
  api_request "POST" "/crm/bulk/v8/read"
    (mkKwargs None None (Some (bulk_read_payload module_name))) w = (Ok res, w1) →
  created_job_id res = Ok id →
  history_file w1 = FJson (JArr l) →
  create_bulk_read_job module_name name w
  = (Ok id, set_history_file (FJson (JArr (l ++ [job_record name id module_name]))) w1).
Proof.
  intros Hreq Hid Hh. unfold create_bulk_read_job.
  rewrite (bind_ok _ _ _ _ _ Hreq). unfold bind, lift. rewrite Hid.
  cbv beta iota. by rewrite Hh.
Qed.

(** C7, at the job name "job1": the creation succeeds and the record
    written to the history has the keys "job1", "id" and "module"; it has no
    key "name". *)
Lemma create_bulk_read_job_record_keys :
  let w := world_with_token [job_created "4150868000000012001"] in
  let out := create_bulk_read_job "Tasks" (Some "job1") w in
  out.1 = Ok (JStr "4150868000000012001")
  ∧ ∃ m, history_file out.2 = FJson (JArr [JObj m])
         ∧ m !! "name" = None
         ∧ m !! "job1" = Some (JStr "job1")
         ∧ m !! "id" = Some (JStr "4150868000000012001")
         ∧ m !! "module" = Some (JStr "Tasks")
         ∧ size m = 3%nat.
Proof.
  split; [vm_compute; reflexivity|].
  eexists. split; [vm_compute; reflexivity|].
  vm_compute. done.
Qed.

(** ** Download *)

Lemma download_all_pages_unfold `{Runtime} job_id out_prefix w :
  download_all_pages job_id out_prefix w =
  match api_request "GET" (job_url job_id) no_kwargs w with
  | (Raise e, w1) => (Raise e, w1)
  | (Ok res, w1) =>
      match job_result res with
      | Raise e => (Raise e, w1)
      | Ok result =>
          match subscript result "page" with
          | Raise e => (Raise e, w1)
          | Ok page =>
              match get_access_token false w1 with
              | (Raise e, w2) => (Raise e, w2)
              | (Ok token, w2) =>
                  match subscript result "download_url" with
                  | Raise e => (Raise e, w2)
                  | Ok url =>
                      match session_send (EvRequest (download_call token url)) w2 with
                      | (Raise e, w3) => (Raise e, w3)
                      | (Ok r, w3) =>
                          (Ok tt, emit (EvFileWrite (zip_name out_prefix page) (content r)) w3)
                      end
                  end
              end
          end
      end
  end.
Proof.
  unfold download_all_pages, job_result, download_call. unfold bind, lift, ret.
  destruct (api_request _ _ _ w) as [[res|e] w1]; [|done].
  destruct (subscript res "data") as [data|e]; [|done].
  destruct (subscript0 data) as [job|e]; [|done].
  destruct (subscript job "result") as [result|e]; [|done].
  destruct (subscript result "page") as [page|e] eqn:Hpage; [|done].
  by destruct result.
Qed.

Lemma filter_none {A} (f : A → bool) (P : A → Prop) (l : list A) :
  (∀ x, P x → f x = false) → Forall P l → filter f l = [].
Proof.
  intros Hf. induction 1 as [|x l Hx _ IH]; [done|].
  rewrite filter_cons_False, IH; [done|]. rewrite (Hf x Hx). by intros [].
Qed.

Lemma wrapper_event_not_file_write method url e :
  wrapper_event method url e → is_file_write e = false.
Proof. by intros [-> | (rq & -> & _)]. Qed.

Lemma wrapper_event_not_direct method url e :
  wrapper_event method url e → is_direct_request e = false.
Proof. intros [-> | (rq & -> & Hr & _)]; [done|]. simpl. by rewrite Hr. Qed.

Lemma download_call_direct `{Runtime} token url :
  direct_event "GET" (EvRequest (download_call token url)).
Proof.
  exists (download_call token url). repeat split. simpl.
  rewrite lookup_insert_eq. by eexists.
Qed.

(** The events of a download: those of the wrapper's metadata call and of
    the token lookup, then at most the GET of the archive and the file. *)
Lemma download_all_pages_trace `{Runtime} job_id out_prefix w :
  let out := download_all_pages job_id out_prefix w in
  ∃ evs1 evs2,
    trace out.2 = trace w ++ evs1 ++ evs2
    ∧ Forall (wrapper_event "GET" (API_DOMAIN +:+ job_url job_id)) evs1
    ∧ ((evs2 = [] ∧ ∃ e, out.1 = Raise e)
       ∨ (∃ token url e, evs2 = [EvRequest (download_call token url)] ∧ out.1 = Raise e)
       ∨ (∃ res w1 result page url token data,
            api_request "GET" (job_url job_id) no_kwargs w = (Ok res, w1)
            ∧ job_result res = Ok result
            ∧ subscript result "page" = Ok page
            ∧ subscript result "download_url" = Ok url
            ∧ out.1 = Ok tt
            ∧ evs2 = [EvRequest (download_call token url);
                      EvFileWrite (zip_name out_prefix page) data])).
Proof.
  intros out. subst out. rewrite download_all_pages_unfold.
  destruct (api_request_trace "GET" (job_url job_id) no_kwargs w) as (evs & Htr & Hall & _).
  destruct (api_request _ _ _ w) as [[res|e] w1] eqn:Hreq; simpl in Htr.
  2:{ exists evs, []. rewrite app_nil_r. split; [done|]. split; [done|]. left. eauto. }
  destruct (job_result res) as [result|e] eqn:Hres.
  2:{ exists evs, []. rewrite app_nil_r. split; [done|]. split; [done|]. left. eauto. }
  destruct (subscript result "page") as [page|e] eqn:Hpage.
  2:{ exists evs, []. rewrite app_nil_r. split; [done|]. split; [done|]. left. eauto. }
  destruct (get_access_token_trace false w1) as (evs0 & Htr0 & Hevs0).
  destruct (token_events_wrapper "GET" (API_DOMAIN +:+ job_url job_id) _ Hevs0) as [Hall0 _].
  assert (Hall1 : Forall (wrapper_event "GET" (API_DOMAIN +:+ job_url job_id)) (evs ++ evs0))
    by (by apply Forall_app).
  destruct (get_access_token false w1) as [[token|e] w2]; simpl in Htr0.
  2:{ exists (evs ++ evs0), []. cbn [snd]. rewrite Htr0, Htr, app_nil_r, <- app_assoc.
      split; [done|]. split; [done|]. left. eauto. }
  destruct (subscript result "download_url") as [url|e] eqn:Hurl.
  2:{ exists (evs ++ evs0), []. cbn [snd]. rewrite Htr0, Htr, app_nil_r, <- app_assoc.
      split; [done|]. split; [done|]. left. eauto. }
  pose proof (session_send_trace (ev:=EvRequest (download_call token url)) w2) as Htr2.
  destruct (session_send _ w2) as [[r|e] w3]; simpl in Htr2.
  - exists (evs ++ evs0),
      [EvRequest (download_call token url); EvFileWrite (zip_name out_prefix page) (content r)].
    simpl. rewrite Htr2, Htr0, Htr, <- !app_assoc. split; [done|]. split; [done|].
    right. right. by exists res, w1, result, page, url, token, (content r).
  - exists (evs ++ evs0), [EvRequest (download_call token url)].
    simpl. rewrite Htr2, Htr0, Htr, <- !app_assoc. split; [done|]. split; [done|].
    right. left. eauto.
Qed.

Lemma api_request_calls `{Runtime} method endpoint kw w :
  ∃ evs, trace (api_request method endpoint kw w).2 = trace w ++ evs
         ∧ Forall (wrapper_event method (API_DOMAIN +:+ endpoint)) evs
         ∧ (length (requests_of evs) ≤ 2)%nat
         ∧ Forall (same_call method (API_DOMAIN +:+ endpoint) kw) (requests_of evs).
Proof.
  destruct (api_request_trace method endpoint kw w) as (evs & Htr & Hall & Hlen).
  exists evs. split; [done|]. split; [done|]. split; [done|].
  revert Htr. rewrite api_request_unfold.
  destruct (api_request_loop_calls [0%nat; 1%nat] method (API_DOMAIN +:+ endpoint) kw None w)
    as (evs' & Htr' & Hcalls).
  destruct (api_request_loop _ _ _ _ _ _) as [[[v|[resp|]]|e] w']; simpl in *;
    rewrite Htr'; by intros ->%app_inv_head.
Qed.

Lemma session_send_ok rq w r w' :
  session_send (EvRequest rq) w = (Ok r, w') →
  ∃ rest, network w = Some r :: rest ∧ w' = answered rq rest w.
Proof.
  unfold session_send, answered. simpl.
  destruct (network w) as [|[r'|] rest]; intros [= <- <-]. by exists rest.
Qed.

(** A download, step by step: the wrapper's metadata call (at most two
    requests, each the plain GET of the job) and the token lookup, then at
    most the GET of the result's [download_url] and the file. *)
Lemma download_all_pages_run `{Runtime} job_id out_prefix w :
  let out := download_all_pages job_id out_prefix w in
  ∃ evs1 evs2,
    trace out.2 = trace w ++ evs1 ++ evs2
    ∧ Forall (wrapper_event "GET" (API_DOMAIN +:+ job_url job_id)) evs1
    ∧ (length (requests_of evs1) ≤ 2)%nat
    ∧ Forall (same_call "GET" (API_DOMAIN +:+ job_url job_id) no_kwargs) (requests_of evs1)
    ∧ ((evs2 = [] ∧ ∃ e, out.1 = Raise e)
       ∨ (∃ res w1 result url token e,
            api_request "GET" (job_url job_id) no_kwargs w = (Ok res, w1)
            ∧ job_result res = Ok result
            ∧ subscript result "download_url" = Ok url
            ∧ evs2 = [EvRequest (download_call token url)]
            ∧ out.1 = Raise e)
       ∨ (∃ res w1 result page url token w2 r rest,
            api_request "GET" (job_url job_id) no_kwargs w = (Ok res, w1)
            ∧ job_result res = Ok result
            ∧ subscript result "page" = Ok page
            ∧ subscript result "download_url" = Ok url
            ∧ get_access_token false w1 = (Ok token, w2)
            ∧ network w2 = Some r :: rest
            ∧ out.1 = Ok tt
            ∧ network out.2 = rest
            ∧ evs2 = [EvRequest (download_call token url);
                      EvFileWrite (zip_name out_prefix page) (content r)])).
Proof.
  intros out. subst out. rewrite download_all_pages_unfold.
  destruct (api_request_calls "GET" (job_url job_id) no_kwargs w)
    as (evs & Htr & Hall & Hlen & Hcalls).
  destruct (api_request _ _ _ w) as [[res|e] w1] eqn:Hreq; simpl in Htr.
  2:{ exists evs, []. rewrite app_nil_r. repeat (split; [done|]). left. eauto. }
  destruct (job_result res) as [result|e] eqn:Hres.
  2:{ exists evs, []. rewrite app_nil_r. repeat (split; [done|]). left. eauto. }
  destruct (subscript result "page") as [page|e] eqn:Hpage.
  2:{ exists evs, []. rewrite app_nil_r. repeat (split; [done|]). left. eauto. }
  destruct (get_access_token_trace false w1) as (evs0 & Htr0 & Hevs0).
  destruct (token_events_wrapper "GET" (API_DOMAIN +:+ job_url job_id) _ Hevs0)
    as [Hall0 Hreq0].
  assert (Hall1 : Forall (wrapper_event "GET" (API_DOMAIN +:+ job_url job_id)) (evs ++ evs0))
    by (by apply Forall_app).
  assert (Hreq1 : requests_of (evs ++ evs0) = requests_of evs)
    by (by rewrite requests_of_app, Hreq0, app_nil_r).
  destruct (get_access_token false w1) as [[token|e] w2] eqn:Htok; simpl in Htr0.
  2:{ exists (evs ++ evs0), []. cbn [snd]. rewrite Hreq1, Htr0, Htr, app_nil_r, <- app_assoc.
      repeat (split; [done|]). left. eauto. }
  destruct (subscript result "download_url") as [url|e] eqn:Hurl.
  2:{ exists (evs ++ evs0), []. cbn [snd]. rewrite Hreq1, Htr0, Htr, app_nil_r, <- app_assoc.
      repeat (split; [done|]). left. eauto. }
  pose proof (session_send_trace (ev:=EvRequest (download_call token url)) w2) as Htr2.
  destruct (session_send _ w2) as [[r|e] w3] eqn:Hsend; simpl in Htr2.
  - apply session_send_ok in Hsend as (rest & Hnet & ->).
    exists (evs ++ evs0),
      [EvRequest (download_call token url); EvFileWrite (zip_name out_prefix page) (content r)].
    rewrite Hreq1. simpl. rewrite Htr0, Htr, <- !app_assoc. repeat (split; [done|]).
    right. right. by exists res, w1, result, page, url, token, w2, r, rest.
  - exists (evs ++ evs0), [EvRequest (download_call token url)].
    rewrite Hreq1. simpl. rewrite Htr2, Htr0, Htr, <- !app_assoc. repeat (split; [done|]).
    right. left. by exists res, w1, result, url, token, e.
Qed.

(** C8: [download_all_pages] writes exactly one file, for the page the
    job's result names, and asks for no other page.  Whatever the run: at
    most one file is written and at most one request is sent besides the
    wrapper's metadata call, which is at most two plain GETs of the job;
    that one request is the GET of the result's [download_url].  A run
    that returns has written one file, named after the result's [page] and
    holding the body of that GET.  And the run does return so whenever the
    metadata call gives a result with [page] and [download_url], the token
    lookup gives a token and an answer to the GET arrives: the result's
    [more_records] and [next_page_token] change nothing, and the answers
    still pending stay unread. *)
Theorem download_all_pages_single_file `{Runtime} (job_id out_prefix : string) (w : world) :
  let out := download_all_pages job_id out_prefix w in
  let evs := events_since w out.2 in
  (length (filter is_file_write evs) ≤ 1)%nat
  ∧ (length (filter is_direct_request evs) ≤ 1)%nat
  ∧ (∃ meta archive,
       requests_of evs = meta ++ archive
       ∧ (length meta ≤ 2)%nat
       ∧ Forall (same_call "GET" (API_DOMAIN +:+ job_url job_id) no_kwargs) meta
       ∧ (archive = []
          ∨ ∃ res w1 result url token,
              api_request "GET" (job_url job_id) no_kwargs w = (Ok res, w1)
              ∧ job_result res = Ok result
              ∧ subscript result "download_url" = Ok url
              ∧ archive = [download_call token url]))
  ∧ (out.1 = Ok tt →
     ∃ res w1 result page url token w2 r rest evs1,
       api_request "GET" (job_url job_id) no_kwargs w = (Ok res, w1)
       ∧ job_result res = Ok result
       ∧ subscript result "page" = Ok page
       ∧ subscript result "download_url" = Ok url
       ∧ get_access_token false w1 = (Ok token, w2)
       ∧ network w2 = Some r :: rest
       ∧ Forall (wrapper_event "GET" (API_DOMAIN +:+ job_url job_id)) evs1
       ∧ (length (requests_of evs1) ≤ 2)%nat
       ∧ evs = evs1 ++ [EvRequest (download_call token url);
                        EvFileWrite (zip_name out_prefix page) (content r)])
  ∧ ∀ res w1 result page url token w2 r rest,
      api_request "GET" (job_url job_id) no_kwargs w = (Ok res, w1) →
      job_result res = Ok result →
      subscript result "page" = Ok page →
      subscript result "download_url" = Ok url →
      get_access_token false w1 = (Ok token, w2) →
      network w2 = Some r :: rest →
      out.1 = Ok tt
      ∧ filter is_file_write evs = [EvFileWrite (zip_name out_prefix page) (content r)]
      ∧ filter is_direct_request evs = [EvRequest (download_call token url)]
      ∧ network out.2 = rest.
Proof.
  intros out evs. subst evs.
  destruct (download_all_pages_run job_id out_prefix w)
    as (evs1 & evs2 & Htr & Hall & Hlen & Hcalls & Hshape).
  fold out in Htr, Hshape. rewrite (events_since_app _ _ _ Htr), !filter_app, requests_of_app.
  rewrite (filter_none is_file_write _ evs1 (wrapper_event_not_file_write _ _) Hall).
  rewrite (filter_none is_direct_request _ evs1 (wrapper_event_not_direct _ _) Hall).
  cbn [app].
  assert (Hsuff : ∀ res w1 result page url token w2 r rest,
      api_request "GET" (job_url job_id) no_kwargs w = (Ok res, w1) →
      job_result res = Ok result →
      subscript result "page" = Ok page →
      subscript result "download_url" = Ok url →
      get_access_token false w1 = (Ok token, w2) →
      network w2 = Some r :: rest →
      out.1 = Ok tt
      ∧ evs2 = [EvRequest (download_call token url);
                EvFileWrite (zip_name out_prefix page) (content r)]
      ∧ network out.2 = rest).
  { intros res w1 result page url token w2 r rest Hreq Hres Hpage Hurl Htok Hnet.
    destruct Hshape as [(_ & e & He) | [(? & ? & ? & ? & ? & e & _ & _ & _ & _ & He) |
      (res' & w1' & result' & page' & url' & token' & w2' & r' & rest'
       & Hreq' & Hres' & Hpage' & Hurl' & Htok' & Hnet' & Hok & Hrest & ->)]].
    - exfalso. revert He. subst out. rewrite download_all_pages_unfold, Hreq, Hres, Hpage,
        Htok, Hurl, (session_send_answered _ r rest w2 Hnet). done.
    - exfalso. revert He. subst out. rewrite download_all_pages_unfold, Hreq, Hres, Hpage,
        Htok, Hurl, (session_send_answered _ r rest w2 Hnet). done.
    - rewrite Hreq in Hreq'. injection Hreq' as <- <-.
      rewrite Hres in Hres'. injection Hres' as <-.
      rewrite Hpage in Hpage'. injection Hpage' as <-.
      rewrite Hurl in Hurl'. injection Hurl' as <-.
      rewrite Htok in Htok'. injection Htok' as <- <-.
      rewrite Hnet in Hnet'. injection Hnet' as <- <-. done. }
  split; [|split; [|split; [|split]]].
  - destruct Hshape as [(-> & _) | [(? & ? & ? & ? & ? & ? & _ & _ & _ & -> & _) |
      (? & ? & ? & ? & ? & ? & ? & ? & ? & _ & _ & _ & _ & _ & _ & _ & _ & ->)]];
      simpl; lia.
  - destruct Hshape as [(-> & _) | [(? & ? & ? & ? & ? & ? & _ & _ & _ & -> & _) |
      (? & ? & ? & ? & ? & ? & ? & ? & ? & _ & _ & _ & _ & _ & _ & _ & _ & ->)]];
      simpl; lia.
  - exists (requests_of evs1), (requests_of evs2). repeat (split; [done|]).
    destruct Hshape as [(-> & _) | [(res & w1 & result & url & token & e & ? & ? & ? & -> & _) |
      (res & w1 & result & page & url & token & ? & ? & ?
       & ? & ? & _ & ? & _ & _ & _ & _ & ->)]].
    + by left.
    + right. by exists res, w1, result, url, token.
    + right. by exists res, w1, result, url, token.
  - destruct Hshape as [(-> & e & ->) | [(? & ? & ? & ? & ? & e & _ & _ & _ & -> & ->) |
      (res & w1 & result & page & url & token & w2 & r & rest
       & ? & ? & ? & ? & ? & ? & -> & _ & ->)]]; [done | done |].
    intros _. by exists res, w1, result, page, url, token, w2, r, rest, evs1.
  - intros res w1 result page url token w2 r rest Hreq Hres Hpage Hurl Htok Hnet.
    destruct (Hsuff _ _ _ _ _ _ _ _ _ Hreq Hres Hpage Hurl Htok Hnet) as (Hok & -> & Hrest).
    done.
Qed.

(** C8 at a completed job whose result announces more records and a
    next-page token, with a further answer pending behind the archive: one
    file, one GET of the archive, and the further answer stays unread. *)
Lemma download_all_pages_single_file_witness :
  let out := download_all_pages "42" "out" download_world_more in
  let evs := events_since download_world_more out.2 in
  out.1 = Ok tt
  ∧ filter is_file_write evs = [EvFileWrite (zip_name "out" (JInt 1)) "PK..."]
  ∧ filter is_direct_request evs
    = [EvRequest (download_call (JStr "abc") (JStr "/crm/bulk/v8/read/42/result"))]
  ∧ network out.2 = [Some (mkResponse 200 None "PK2")].
Proof.
  intros out evs.
  destruct (download_all_pages_single_file "42" "out" download_world_more)
    as (_ & _ & _ & _ & Hsuff).
  apply (Hsuff (obj [("data", JArr [obj [("state", JStr "COMPLETED");
                                         ("result", paged_result)]])])
               (api_request "GET" (job_url "42") no_kwargs download_world_more).2
               paged_result (JInt 1) (JStr "/crm/bulk/v8/read/42/result") (JStr "abc")
               (get_access_token false
                  (api_request "GET" (job_url "42") no_kwargs download_world_more).2).2
               (mkResponse 200 None "PK...") [Some (mkResponse 200 None "PK2")]);
    vm_compute; reflexivity.
Defined.

(** The result announces more pages and a next-page token: one GET of the
    archive, one file, nothing else. *)
Example download_all_pages_more_records :
  let out := download_all_pages "42" "out" download_world in
  out.1 = Ok tt
  ∧ filter is_file_write (trace out.2) = [EvFileWrite "out_page_1.zip" "PK..."]
  ∧ map rq_url (requests_of (trace out.2))
    = ["https://www.zohoapis.com/crm/bulk/v8/read/42";
       "https://www.zohoapis.com/crm/bulk/v8/read/42/result"].
Proof. vm_compute. done. Qed.

(** ** Which route each handler's calls take *)

Lemma create_bulk_read_job_trace `{Runtime} module_name name w :
  ∃ evs, trace (create_bulk_read_job module_name name w).2 = trace w ++ evs ∧
         Forall (wrapper_event "POST" (API_DOMAIN +:+ "/crm/bulk/v8/read")) evs.
Proof.
  destruct (api_request_trace "POST" "/crm/bulk/v8/read"
              (mkKwargs None None (Some (bulk_read_payload module_name))) w)
    as (evs & Htr & Hall & _).
  exists evs. split; [|done]. rewrite <- Htr.
  unfold create_bulk_read_job, bind, lift.
  destruct (api_request _ _ _ w) as [[res|e] w1]; [|done].
  destruct (created_job_id res) as [id|e]; [|done].
  destruct (history_file w1) as [| | |[]]; done.
Qed.

Lemma check_job_status_trace `{Runtime} job_id fuel : ∀ w out,
  check_job_status fuel job_id w = Some out →
  ∃ evs, trace out.2 = trace w ++ evs ∧
         Forall (λ e, wrapper_event "GET" (API_DOMAIN +:+ job_url job_id) e ∨ e = EvSleep 5) evs.
Proof.
  unfold check_job_status. induction fuel as [|fuel IH]; intros w out; [done|].
  rewrite while_true_S, check_job_status_body_poll.
  destruct (poll_trace job_id w) as (evs & Htr & Hall & _).
  assert (Hall' : Forall (λ e, wrapper_event "GET" (API_DOMAIN +:+ job_url job_id) e
                               ∨ e = EvSleep 5) evs).
  { eapply Forall_impl; [exact Hall|]. by left. }
  destruct (poll job_id w) as [[[job state]|e] w1]; simpl in Htr.
  2:{ intros [= <-]. by exists evs. }
  destruct (terminal state).
  - destruct (verdict job state); intros [= <-]; by exists evs.
  - intros Hrun. destruct (IH _ _ Hrun) as (evs' & Htr' & Hall'').
    exists (evs ++ [EvSleep 5] ++ evs'). split.
    + rewrite Htr'. simpl. by rewrite Htr, <- !app_assoc.
    + apply Forall_app. split; [done|]. apply Forall_app. split; [|done].
      apply Forall_singleton. by right.
Qed.

Lemma delete_call_direct `{Runtime} module token s :
  direct_event "DELETE"
    (EvRequest (delete_call module (<["Authorization" := authorization token]> ∅) s)).
Proof.
  eexists. split; [done|]. repeat split. simpl. rewrite lookup_insert_eq. by eexists.
Qed.

Lemma delete_batch_from_file_trace `{Runtime} module file_path w :
  let out := delete_batch_from_file module file_path w in
  ∃ evs0 token strs,
    trace out.2 = trace w ++ evs0
                  ++ map (λ s, EvRequest (delete_call module
                                (<["Authorization" := authorization token]> ∅) s)) strs
    ∧ (evs0 = [] ∨ evs0 = [EvTokenPost]).
Proof.
  intros out. subst out. unfold delete_batch_from_file.
  pose proof (read_id_column_world file_path w) as Hw.
  destruct (read_id_column file_path w) as [[ids|e] w0]; simpl in Hw; subst w0.
  2:{ exists [], JNull, []. simpl. rewrite app_nil_r. split; [done | by left]. }
  destruct (get_access_token_trace false w) as (evs0 & Htr0 & Hevs0).
  destruct (get_access_token false w) as [[token|e] w1]; simpl in Htr0.
  2:{ exists evs0, JNull, []. simpl. by rewrite app_nil_r. }
  destruct (delete_loop_trace module (<["Authorization" := authorization token]> ∅)
              (chunked 100 ids) 0 w1) as (n & strs & _ & Htr & _).
  exists evs0, token, strs. rewrite Htr, Htr0, <- app_assoc. done.
Qed.

Lemma action_download_trace `{Runtime} job_id out_prefix w :
  ∃ evs, trace (action_download job_id out_prefix w).2 = trace w ++ evs
         ∧ Forall (λ e, wrapper_event "GET" (API_DOMAIN +:+ job_url job_id) e
                        ∨ direct_event "GET" e ∨ is_file_write e) evs
         ∧ (length (filter is_direct_request evs) ≤ 1)%nat.
Proof.
  assert (Hsplit : action_download job_id out_prefix w =
                   match poll job_id w with
                   | (Raise e, w1) => (Raise e, w1)
                   | (Ok (job, state), w1) =>
                       if negb (eq_str state "COMPLETED")
                       then (Raise (SystemExit 1), w1)
                       else download_all_pages job_id out_prefix w1
                   end).
  { unfold action_download, poll, bind, lift, ret, raise.
    destruct (api_request _ _ _ w) as [[res|e] w1]; [|done].
    destruct (subscript res "data") as [data|e]; [|done].
    destruct (subscript0 data) as [job|e]; [|done].
    destruct (subscript job "state") as [state|e]; [|done].
    by destruct (negb _). }
  rewrite Hsplit. clear Hsplit.
  destruct (poll_trace job_id w) as (evs & Htr & Hall & _).
  assert (Hall' : Forall (λ e, wrapper_event "GET" (API_DOMAIN +:+ job_url job_id) e
                               ∨ direct_event "GET" e ∨ is_file_write e) evs).
  { eapply Forall_impl; [exact Hall|]. by left. }
  pose proof (filter_none is_direct_request _ evs (wrapper_event_not_direct _ _) Hall) as Hd.
  destruct (poll job_id w) as [[[job state]|e] w1]; simpl in Htr.
  2:{ exists evs. rewrite Hd. split; [done|]. split; [done | simpl; lia]. }
  destruct (negb _).
  { exists evs. rewrite Hd. split; [done|]. split; [done | simpl; lia]. }
  destruct (download_all_pages_trace job_id out_prefix w1)
    as (evs1 & evs2 & Htr1 & Hall1 & Hshape).
  exists (evs ++ evs1 ++ evs2). split; [by rewrite Htr1, Htr, <- !app_assoc|].
  rewrite !filter_app, Hd.
  rewrite (filter_none is_direct_request _ evs1 (wrapper_event_not_direct _ _) Hall1).
  split.
  - apply Forall_app. split; [done|]. apply Forall_app. split.
    + eapply Forall_impl; [exact Hall1|]. by left.
    + destruct Hshape as [(-> & _) | [(token & url & e & -> & _) |
                      (res & w2 & result & page & url & token & data & _ & _ & _ & _ & _ & ->)]].
      * constructor.
      * apply Forall_singleton. right. left. apply download_call_direct.
      * constructor; [right; left; apply download_call_direct|].
        apply Forall_singleton. by right; right.
  - destruct Hshape as [(-> & _) | [(token & url & e & -> & _) |
                      (res & w2 & result & page & url & token & data & _ & _ & _ & _ & _ & ->)]];
      simpl; lia.
Qed.

(** C5 (as amended): every call of create job and of poll status, and the
    metadata call of download, is issued through [api_request].  The GET of
    the archive in download and every DELETE of delete-batch are sent on the
    session directly, with an [Authorization] header from
    [get_access_token()]: at most one GET per download and one DELETE per
    chunk, with no token refresh between the DELETEs, hence no retry on
    401.  The same holds of the script's [download] action, whose own
    state query goes through [api_request]. *)
Theorem handlers_routes `{Runtime} :
  (∀ module_name name w,
     Forall (wrapper_event "POST" (API_DOMAIN +:+ "/crm/bulk/v8/read"))
            (events_since w (create_bulk_read_job module_name name w).2))
  ∧ (∀ fuel job_id w,
       match check_job_status fuel job_id w with
       | Some out =>
           Forall (λ e, wrapper_event "GET" (API_DOMAIN +:+ job_url job_id) e ∨ e = EvSleep 5)
                  (events_since w out.2)
       | None => True
       end)
  ∧ (∀ job_id out_prefix w,
       let evs := events_since w (download_all_pages job_id out_prefix w).2 in
       Forall (λ e, wrapper_event "GET" (API_DOMAIN +:+ job_url job_id) e
                    ∨ direct_event "GET" e ∨ is_file_write e) evs
       ∧ (length (filter is_direct_request evs) ≤ 1)%nat)
  ∧ (∀ job_id out_prefix w,
       let evs := events_since w (action_download job_id out_prefix w).2 in
       Forall (λ e, wrapper_event "GET" (API_DOMAIN +:+ job_url job_id) e
                    ∨ direct_event "GET" e ∨ is_file_write e) evs
       ∧ (length (filter is_direct_request evs) ≤ 1)%nat)
  ∧ (∀ module file_path w,
       Forall (λ e, e = EvTokenPost ∨ direct_event "DELETE" e)
              (events_since w (delete_batch_from_file module file_path w).2))
  ∧ (∀ module headers batches total w,
       let evs := events_since w (delete_loop module headers batches total w).2 in
       filter is_token_post evs = []
       ∧ (length (requests_of evs) ≤ length batches)%nat).
Proof.
  split; [|split; [|split; [|split; [|split]]]].
  - intros module_name name w.
    destruct (create_bulk_read_job_trace module_name name w) as (evs & Htr & Hall).
    by rewrite (events_since_app _ _ _ Htr).
  - intros fuel job_id w.
    destruct (check_job_status fuel job_id w) as [out|] eqn:Hrun; [|done].
    destruct (check_job_status_trace job_id fuel w out Hrun) as (evs & Htr & Hall).
    by rewrite (events_since_app _ _ _ Htr).
  - intros job_id out_prefix w evs.
    destruct (download_all_pages_trace job_id out_prefix w)
      as (evs1 & evs2 & Htr & Hall & Hshape).
    subst evs. rewrite (events_since_app _ _ _ Htr). split.
    + apply Forall_app. split.
      * eapply Forall_impl; [exact Hall|]. by left.
      * destruct Hshape as [(-> & _) | [(token & url & e & -> & _) |
                      (res & w1 & result & page & url & token & data & _ & _ & _ & _ & _ & ->)]].
        -- constructor.
        -- apply Forall_singleton. right. left. apply download_call_direct.
        -- constructor; [right; left; apply download_call_direct|].
           apply Forall_singleton. by right; right.
    + rewrite filter_app.
      rewrite (filter_none is_direct_request _ evs1 (wrapper_event_not_direct _ _) Hall).
      destruct Hshape as [(-> & _) | [(token & url & e & -> & _) |
                      (res & w1 & result & page & url & token & data & _ & _ & _ & _ & _ & ->)]];
        simpl; lia.
  - intros job_id out_prefix w evs.
    destruct (action_download_trace job_id out_prefix w) as (evs' & Htr & Hall & Hlen).
    subst evs. by rewrite (events_since_app _ _ _ Htr).
  - intros module file_path w.
    destruct (delete_batch_from_file_trace module file_path w)
      as (evs0 & token & strs & Htr & Hevs0).
    rewrite (events_since_app _ _ _ Htr). apply Forall_app. split.
    + destruct Hevs0 as [-> | ->]; [constructor|]. apply Forall_singleton. by left.
    + apply Forall_forall. intros e [s [<- _]]%list_elem_of_In%in_map_iff.
      right. apply delete_call_direct.
  - intros module headers batches total w evs.
    destruct (delete_loop_trace module headers batches total w) as (n & strs & Hj & Htr & _).
    subst evs. rewrite (events_since_app _ _ _ Htr). split.
    + clear. induction strs as [|s strs IH]; [done|].
      cbn [map]. by rewrite filter_cons_False by (by intros []).
    + rewrite <- (map_map (delete_call module headers) EvRequest), requests_of_map, length_map.
      apply Forall2_length in Hj. rewrite <- Hj, length_take. lia.
Qed.

(** C5, counterexample: the first DELETE of a batch delete is answered
    401.  The call was sent on the session directly, not through
    [api_request]; no token refresh and no second attempt follow, where the
    wrapper given the same answers refreshes the token and tries again. *)
Lemma delete_batch_401_not_retried :
  let net := [status_only 401; token_response "t1" 3600; status_only 200] in
  let w := world_with_csv (csv_of_size 2) net in
  let out := delete_batch_from_file "Tasks" "ids.csv" w in
  out.1 = (Raise (HTTPError 401), 0)
  ∧ map rq_route (requests_of (trace out.2)) = [DirectSession]
  ∧ filter is_token_post (trace out.2) = []
  ∧ length (requests_of (trace (api_request "DELETE" "/crm/v8/Tasks" no_kwargs w).2)) = 2%nat.
Proof. vm_compute. done. Qed.

(** * Further properties *)

(** ** The token cache, read and written *)

(** X1: whatever the cache file holds, [_load_cached_token] raises nothing:
    it yields a value, sends nothing, writes nothing, and reads the clock at
    most once. *)
Theorem _load_cached_token_silent (w : world) :
  ∃ v w', _load_cached_token w = (Ok v, w')
          ∧ trace w' = trace w ∧ network w' = network w
          ∧ cache_file w' = cache_file w ∧ history_file w' = history_file w
          ∧ (ticks w' = ticks w ∨ ticks w' = S (ticks w)).
Proof.
  unfold _load_cached_token. unfold_m.
  destruct (cache_file w) as [| | |j] eqn:Hc; simpl;
    try (eexists _, _; split; [reflexivity|]; by auto 7).
  destruct (subscript j "expires_at"); simpl;
    [|eexists _, _; split; [reflexivity|]; by auto 7].
  destruct (sub_float _ _); simpl;
    [|eexists _, _; split; [reflexivity|]; simpl; by auto 7].
  destruct (gt_SKEW _); simpl;
    [|eexists _, _; split; [reflexivity|]; simpl; by auto 7].
  destruct (subscript j "access_token");
    eexists _, _; (split; [reflexivity|]); simpl; by auto 7.
Qed.

Lemma refresh_access_token_raise `{Runtime} w e w' :
  refresh_access_token w = (Raise e, w') → cache_file w' = cache_file w.
Proof.
  unfold refresh_access_token, _save_cached_token. unfold_m. simpl.
  destruct (network w) as [|[r|] rest]; simpl; try (by intros [= <- <-]).
  destruct (is_error_status _); simpl; try (by intros [= <- <-]).
  destruct (json_body r); simpl; try (by intros [= <- <-]).
  destruct (subscript _ _); simpl; try (by intros [= <- <-]).
  destruct (dict_get _ _ _); simpl; try (by intros [= <- <-]).
  destruct (py_int _); simpl; try (by intros [= <- <-]).
  destruct (float_add_int _ _); simpl; by intros [= <- <-].
Qed.

(** X2: a token lookup that raises has asked the token endpoint once and
    has left the cache file as it was. *)
Theorem get_access_token_failure_keeps_cache `{Runtime} (b : bool) (w w' : world) (e : exn) :
  get_access_token b w = (Raise e, w') →
  cache_file w' = cache_file w ∧ trace w' = trace w ++ [EvTokenPost].
Proof.
  intros Hg.
  destruct (get_access_token_refresh_or_hit b w) as [(t & Ht) | (w1 & (Htr & _ & Hc) & Hr)].
  - by rewrite Ht in Hg.
  - rewrite Hr in Hg. split.
    + rewrite <- Hc. by apply (refresh_access_token_raise w1 e).
    + rewrite <- Htr. rewrite <- (refresh_access_token_trace w1). by rewrite Hg.
Qed.

(** X2 at an expired cache and a token endpoint answering 500. *)
Lemma get_access_token_failure_keeps_cache_witness :
  let w := world_at (t0 + 2000) (cache_of (JStr "abc") t0_plus_1000) [status_only 500] in
  cache_file (get_access_token false w).2 = cache_file w
  ∧ trace (get_access_token false w).2 = trace w ++ [EvTokenPost].
Proof.
  intros w.
  apply (get_access_token_failure_keeps_cache false w (get_access_token false w).2
           (HTTPError 500)).
  vm_compute. reflexivity.
Defined.

Lemma refresh_access_token_saved `{Runtime} w tok w1 :
  refresh_access_token w = (Ok tok, w1) →
  ∃ resp rest data v n fl,
    network w = Some resp :: rest ∧ json_body resp = Some data
    ∧ subscript data "access_token" = Ok tok
    ∧ dict_get data "expires_in" (JInt 3600) = Ok v ∧ py_int v = Ok n
    ∧ float_of_int n = Ok fl
    ∧ cache_file w1 =
        FJson (JObj (<["expires_at" := JFloat (PrimFloat.add (clock w (ticks w)) fl)]>
                     (<["access_token" := tok]> ∅)))
    ∧ clock w1 = clock w ∧ ticks w1 = S (ticks w) ∧ network w1 = rest.
Proof.
  unfold refresh_access_token, _save_cached_token, float_add_int. unfold_m. simpl.
  destruct (network w) as [|[r|] rest] eqn:Hn; simpl; try done.
  destruct (is_error_status _); simpl; try done.
  destruct (json_body r) as [data|] eqn:Hb; simpl; try done.
  destruct (subscript data _) as [t|] eqn:Hs; simpl; try done.
  destruct (dict_get _ _ _) as [v|] eqn:Hv; simpl; try done.
  destruct (py_int _) as [n|] eqn:Hi; simpl; try done.
  destruct (float_of_int n) as [fl|] eqn:Hf; simpl; try done.
  intros [= -> <-]. by exists r, rest, data, v, n, fl.
Qed.

Lemma _load_cached_token_entry w t e :
  cached_entry w = Some (t, e) →
  _load_cached_token w
  = (Ok (if unexpired e (clock w (ticks w)) then t else JNull), set_ticks (S (ticks w)) w).
Proof.
  unfold cached_entry, unexpired, _load_cached_token. unfold_m.
  destruct (cache_file w) as [| | |[]]; simpl; try done.
  destruct (m !! "access_token") eqn:Ht; [|done].
  destruct (m !! "expires_at") eqn:He; [|done].
  intros [= -> ->]. simpl.
  destruct (sub_float _ _); simpl; [|done].
  by destruct (gt_SKEW _).
Qed.

(** X3: what a forced refresh saves, the next lookup reads back.  After a
    refresh that returned a truthy token, the cache holds that token and the
    expiry [now + int(expires_in)] ([expires_in] defaulting to 3600); the
    next [get_access_token()] returns the same token without sending
    anything if that expiry is more than SKEW ahead of the next clock
    reading, and otherwise goes to the token endpoint again. *)
Theorem refreshed_token_is_reused `{Runtime} (w w1 : world) (tok : json) :
  get_access_token true w = (Ok tok, w1) →
  truthy tok = true →
  ∃ resp rest data v n fl,
    network w = Some resp :: rest ∧ json_body resp = Some data
    ∧ dict_get data "expires_in" (JInt 3600) = Ok v ∧ py_int v = Ok n
    ∧ float_of_int n = Ok fl
    ∧ let expires_at := PrimFloat.add (clock w (ticks w)) fl in
      cached_entry w1 = Some (tok, JFloat expires_at)
      ∧ if gt_SKEW (PrimFloat.sub expires_at (clock w (S (ticks w))))
        then get_access_token false w1 = (Ok tok, set_ticks (S (ticks w1)) w1)
        else get_access_token false w1
             = refresh_access_token (set_ticks (S (ticks w1)) w1).
Proof.
  intros Hg Ht. change (get_access_token true w) with (refresh_access_token w) in Hg.
  destruct (refresh_access_token_saved w tok w1 Hg)
    as (resp & rest & data & v & n & fl & Hn & Hb & _ & Hv & Hi & Hf & Hc & Hclk & Htk & _).
  exists resp, rest, data, v, n, fl. repeat (split; [done|]). cbv zeta.
  assert (Hce : cached_entry w1
                = Some (tok, JFloat (PrimFloat.add (clock w (ticks w)) fl))).
  { unfold cached_entry. rewrite Hc.
    rewrite lookup_insert_ne, lookup_insert_eq, lookup_insert_eq by done. done. }
  split; [done|].
  unfold get_access_token. cbn [negb].
  rewrite (bind_ok _ _ _ _ _ (_load_cached_token_entry _ _ _ Hce)).
  unfold unexpired. cbn [sub_float as_float]. rewrite Hclk, Htk.
  destruct (gt_SKEW _); [by rewrite Ht | done].
Qed.

(** X3 at a refresh answered with a lifetime of 3600 seconds. *)
Lemma refreshed_token_is_reused_witness :
  let w := world_with_token [token_response "new" 3600] in
  let w1 := (get_access_token true w).2 in
  get_access_token false w1 = (Ok (JStr "new"), set_ticks (S (ticks w1)) w1).
Proof.
  intros w w1.
  destruct (refreshed_token_is_reused w w1 (JStr "new") ltac:(vm_compute; reflexivity)
              ltac:(reflexivity))
    as (resp & rest & data & v & n & fl & Hn & Hb & Hv & Hi & Hf & _ & Hre).
  injection Hn as <- <-. injection Hb as <-.
  vm_compute in Hv. injection Hv as <-. vm_compute in Hi. injection Hi as <-.
  vm_compute in Hf. injection Hf as <-.
  exact Hre.
Defined.

(** ** The wrapper: what it returns and what it sends *)

Lemma refresh_access_token_network `{Runtime} w :
  network (refresh_access_token w).2 = tail (network w).
Proof.
  unfold refresh_access_token, _save_cached_token. unfold_m. cbn.
  destruct (network w) as [|[r|] rest] eqn:Hn; cbn; rewrite ?Hn; try done.
  destruct (is_error_status _); cbn; try done.
  destruct (json_body r); cbn; try done.
  destruct (subscript _ _); cbn; try done.
  destruct (dict_get _ _ _); cbn; try done.
  destruct (py_int _); cbn; try done.
  by destruct (float_add_int _ _).
Qed.

Lemma suffix_tail {A} (l : list A) : tail l `suffix_of` l.
Proof. destruct l as [|x l]; [done|]. by apply suffix_cons_r. Qed.

Lemma get_access_token_network `{Runtime} b w :
  network (get_access_token b w).2 `suffix_of` network w.
Proof.
  destruct (get_access_token_refresh_or_hit b w) as [(t & ->) | (w1 & (_ & Hn & _) & ->)].
  - done.
  - rewrite refresh_access_token_network, Hn. apply suffix_tail.
Qed.

Lemma elem_of_suffix {A} (x : A) (l1 l2 : list A) :
  l1 `suffix_of` l2 → x ∈ l1 → x ∈ l2.
Proof. intros [k ->] Hx. apply elem_of_app. by right. Qed.

Lemma api_request_loop_ok `{Runtime} attempts method url : ∀ kw last w v w',
  api_request_loop attempts method url kw last w = (Ok (inl v), w') →
  ∃ resp, Some resp ∈ network w ∧ status_code resp ≠ 401
          ∧ is_error_status (status_code resp) = false ∧ json_body resp = Some v.
Proof.
  induction attempts as [|a rest IH]; intros kw last w v w'; [done|].
  rewrite api_request_loop_cons.
  pose proof (get_access_token_network false w) as Hs1.
  destruct (get_access_token false w) as [[token|e] w1]; [|done]. simpl in Hs1.
  cbv zeta. unfold session_send. simpl.
  destruct (network w1) as [|[resp|] net] eqn:Hn; try done.
  destruct (negb _) eqn:H401.
  - unfold checked_json.
    destruct (is_error_status _) eqn:Herr; [done|].
    destruct (json_body resp) as [j|] eqn:Hb; [|done].
    intros [= <- _]. exists resp. split; [|split; [|done]].
    + apply (elem_of_suffix _ _ _ Hs1). left.
    + apply negb_true_iff, Z.eqb_neq in H401. done.
  - match goal with |- context [get_access_token true ?w2] =>
      pose proof (get_access_token_network true w2) as Hs2;
      destruct (get_access_token true w2) as [[?|e] w3] end; [|done].
    simpl in Hs2. intros Hrun.
    destruct (IH _ _ _ _ _ Hrun) as (r & Hin & Hr).
    exists r. split; [|done].
    apply (elem_of_suffix _ _ _ Hs1). right. by apply (elem_of_suffix _ _ _ Hs2).
Qed.

Lemma api_request_loop_end `{Runtime} method url attempts : ∀ kw last w r w1,
  api_request_loop attempts method url kw last w = (Ok (inr (Some r)), w1) →
  (∀ r0, last = Some r0 → status_code r0 = 401) → status_code r = 401.
Proof.
  induction attempts as [|a rest IH]; intros kw last w r w1.
  - simpl. unfold ret. intros [= -> _] Hlast. by apply Hlast.
  - rewrite api_request_loop_cons.
    destruct (get_access_token false w) as [[token|e] w2]; [|done].
    cbv zeta. destruct (session_send _ w2) as [[r1|e] w3]; [|done].
    destruct (negb _) eqn:H401.
    + by destruct (checked_json r1).
    + destruct (get_access_token true w3) as [[?|e] w4]; [|done].
      intros Hrun _. apply (IH _ _ _ _ _ Hrun).
      intros r0 [= <-]. apply negb_false_iff, Z.eqb_eq in H401. done.
Qed.

(** X4: a value [api_request] returns is the JSON body of one of the
    answers the network held, an answer whose status is neither 401 nor
    4xx/5xx.  It never returns the implicit [None] of its last line. *)
Theorem api_request_ok_from_answer `{Runtime} (method endpoint : string) (kw : kwargs)
    (w w' : world) (v : json) :
  api_request method endpoint kw w = (Ok v, w') →
  ∃ resp, Some resp ∈ network w ∧ status_code resp ≠ 401
          ∧ is_error_status (status_code resp) = false ∧ json_body resp = Some v.
Proof.
  rewrite api_request_unfold.
  destruct (api_request_loop _ _ _ _ _ w) as [[[v'|[resp|]]|e] w1] eqn:Hloop; try done.
  - intros [= <- <-]. by apply (api_request_loop_ok _ _ _ _ _ _ _ _ Hloop).
  - destruct (is_error_status (status_code resp)) eqn:Herr; [done|].
    rewrite (api_request_loop_end _ _ _ _ _ _ _ _ Hloop) in Herr; done.
Qed.

(** X4 at a 401 followed, after the refresh, by a 200 with a body. *)
Lemma api_request_ok_from_answer_witness :
  let w := world_with_token [status_only 401; token_response "t1" 3600;
                             ok_json (JArr [JInt 7])] in
  ∃ resp, Some resp ∈ network w ∧ status_code resp ≠ 401
          ∧ is_error_status (status_code resp) = false
          ∧ json_body resp = Some (JArr [JInt 7]).
Proof.
  intros w.
  apply (api_request_ok_from_answer "GET" "/x" no_kwargs w
           (api_request "GET" "/x" no_kwargs w).2 (JArr [JInt 7])).
  vm_compute. reflexivity.
Defined.

(** X5: every request [api_request] sends, the retry included, is the
    caller's: same method, same URL, same [params], same [json] body, with
    an [Authorization] header added. *)
Theorem api_request_same_call `{Runtime} (method endpoint : string) (kw : kwargs)
    (w : world) :
  Forall (same_call method (API_DOMAIN +:+ endpoint) kw)
         (requests_of (events_since w (api_request method endpoint kw w).2)).
Proof.
  rewrite api_request_unfold.
  destruct (api_request_loop_calls [0%nat; 1%nat] method (API_DOMAIN +:+ endpoint) kw None w)
    as (evs & Htr & Hall).
  destruct (api_request_loop _ _ _ _ _ _) as [[[v|[resp|]]|e] w']; simpl in *;
    by rewrite (events_since_app _ _ _ Htr).
Qed.

(** X6: without a token nothing reaches the vendor.  When the lookup of the
    token raises, [api_request] raises the same exception and has sent no
    request. *)
Theorem api_request_without_token `{Runtime} (method endpoint : string) (kw : kwargs)
    (w w1 : world) (e : exn) :
  get_access_token false w = (Raise e, w1) →
  api_request method endpoint kw w = (Raise e, w1)
  ∧ requests_of (events_since w w1) = [].
Proof.
  intros Hg. split.
  - by rewrite api_request_unfold, api_request_loop_cons, Hg.
  - destruct (get_access_token_trace false w) as (evs0 & Htr0 & Hevs0).
    rewrite Hg in Htr0. simpl in Htr0. rewrite (events_since_app _ _ _ Htr0).
    by destruct Hevs0 as [-> | ->].
Qed.

(** X6 at an expired cache and a token endpoint that answers 500. *)
Lemma api_request_without_token_witness :
  let w := world_at (t0 + 2000) (cache_of (JStr "abc") t0_plus_1000)
                    [status_only 500; ok_json JNull] in
  (api_request "GET" "/x" no_kwargs w).1 = Raise (HTTPError 500)
  ∧ requests_of (events_since w (get_access_token false w).2) = [].
Proof.
  intros w.
  destruct (api_request_without_token "GET" "/x" no_kwargs w (get_access_token false w).2
              (HTTPError 500) ltac:(vm_compute; reflexivity)) as [-> Hreq].
  split; [reflexivity | exact Hreq].
Defined.

(** X7: the retry carries the renewed token.  When the first answer is 401,
    the forced refresh returns a truthy token and the cache it wrote is
    still valid at the next clock reading, the two requests sent are the
    caller's with the first token (and the caller's headers) and then with
    the renewed token alone. *)
Theorem api_request_retry_with_renewed_token `{Runtime} (method endpoint : string)
    (kw : kwargs) (w w1 w3 : world) (token tok2 : json) (resp : response)
    (rest : list (option response)) :
  get_access_token false w = (Ok token, w1) →
  network w1 = Some resp :: rest →
  status_code resp = 401 →
  let rq1 := api_call method endpoint (default ∅ (kw_headers kw)) kw token in
  get_access_token true (answered rq1 rest w1) = (Ok tok2, w3) →
  truthy tok2 = true →
  fresh_token w3 = Some tok2 →
  requests_of (events_since w (api_request method endpoint kw w).2)
  = [rq1; api_call method endpoint ∅ kw tok2].
Proof.
  intros Htok Hnet H401 rq1 Href Htruthy Hfresh.
  destruct (get_access_token_trace false w) as (evs0 & Htr0 & Hevs0).
  assert (Hreq0 : requests_of evs0 = []) by (by destruct Hevs0 as [-> | ->]).
  rewrite Htok in Htr0. simpl in Htr0.
  pose proof (get_access_token_true_trace (answered rq1 rest w1)) as Htr3.
  rewrite Href in Htr3. simpl in Htr3.
  set (rq2 := api_call method endpoint ∅ kw tok2).
  set (w4 := set_ticks (S (ticks w3)) w3).
  assert (Hshape : ∃ evs, trace (api_request method endpoint kw w).2
                          = trace w4 ++ EvRequest rq2 :: evs ∧ requests_of evs = []).
  { rewrite api_request_unfold, api_request_loop_cons, Htok. cbv zeta.
    rewrite (session_send_answered _ resp rest w1 Hnet).
    fold (api_call method endpoint (default ∅ (kw_headers kw)) kw token). fold rq1.
    rewrite H401. cbn [Z.eqb Pos.eqb negb]. rewrite Href.
    rewrite api_request_loop_cons, (get_access_token_hit w3 tok2 Hfresh Htruthy).
    cbv zeta. cbn [kw_headers kw_params kw_json default].
    change (mkRequest ViaApiRequest method (API_DOMAIN +:+ endpoint)
              (<["Authorization":=authorization tok2]> ∅) (kw_params kw) (kw_json kw))
      with rq2. fold w4.
    pose proof (session_send_trace (ev:=EvRequest rq2) w4) as Htr5.
    destruct (session_send _ w4) as [[resp2|e] w5]; simpl in Htr5.
    2:{ exists []. split; [|done]. simpl. by rewrite Htr5. }
    destruct (negb _).
    { exists []. split; [|done]. simpl. by destruct (checked_json resp2). }
    pose proof (get_access_token_true_trace w5) as Htr6.
    destruct (get_access_token true w5) as [[?|e] w6]; simpl in Htr6;
      exists [EvTokenPost]; (split; [|done]); simpl;
      by rewrite Htr6, Htr5, <- app_assoc. }
  destruct Hshape as (evs & Htr & Hreq).
  rewrite (events_since_app w _ (evs0 ++ [EvRequest rq1; EvTokenPost] ++ EvRequest rq2 :: evs)).
  - rewrite !requests_of_app, Hreq0. simpl.
    change (requests_of (EvRequest rq2 :: evs)) with (rq2 :: requests_of evs).
    by rewrite Hreq.
  - rewrite Htr. subst w4. simpl. rewrite Htr3. simpl. rewrite Htr0.
    by rewrite <- !app_assoc.
Qed.

(** X7 at a 401, a renewed token good for an hour, and a 200. *)
Lemma api_request_retry_with_renewed_token_witness :
  let w := world_with_token [status_only 401; token_response "t1" 3600;
                             ok_json JNull] in
  requests_of (events_since w (api_request "GET" "/x" no_kwargs w).2)
  = [api_call "GET" "/x" ∅ no_kwargs (JStr "abc");
     api_call "GET" "/x" ∅ no_kwargs (JStr "t1")].
Proof.
  intros w.
  apply (api_request_retry_with_renewed_token "GET" "/x" no_kwargs w (set_ticks 1 w)
           (get_access_token true
              (answered (api_call "GET" "/x" ∅ no_kwargs (JStr "abc"))
                        [token_response "t1" 3600; ok_json JNull] (set_ticks 1 w))).2
           (JStr "abc") (JStr "t1") (mkResponse 401 None "")
           [token_response "t1" 3600; ok_json JNull]);
    vm_compute; reflexivity.
Defined.

(** ** What requests leave alone *)

Lemma frame_refl w : frame w w.
Proof. done. Qed.

Lemma frame_trans w1 w2 w3 : frame w1 w2 → frame w2 w3 → frame w1 w3.
Proof. intros (? & ?) (? & ?). split; congruence. Qed.

Lemma _load_cached_token_frame w : frame w (_load_cached_token w).2.
Proof.
  unfold _load_cached_token. unfold_m.
  destruct (cache_file w) as [| | |j]; simpl; try done.
  destruct (subscript j "expires_at"); simpl; try done.
  destruct (sub_float _ _); simpl; try done.
  destruct (gt_SKEW _); simpl; try done.
  by destruct (subscript j "access_token").
Qed.

Lemma refresh_access_token_frame `{Runtime} w : frame w (refresh_access_token w).2.
Proof.
  unfold refresh_access_token, _save_cached_token. unfold_m. cbn.
  destruct (network w) as [|[r|] rest] eqn:Hn; cbn; rewrite ?Hn; try done.
  destruct (is_error_status _); cbn; try done.
  destruct (json_body r); cbn; try done.
  destruct (subscript _ _); cbn; try done.
  destruct (dict_get _ _ _); cbn; try done.
  destruct (py_int _); cbn; try done.
  by destruct (float_add_int _ _).
Qed.

Lemma get_access_token_frame `{Runtime} b w : frame w (get_access_token b w).2.
Proof.
  destruct b; [apply refresh_access_token_frame|].
  unfold get_access_token, bind. cbn [negb].
  pose proof (_load_cached_token_frame w) as Hl.
  destruct (_load_cached_token w) as [[cached|e] w1]; [|done]. simpl in Hl.
  destruct (truthy cached); [done|].
  eapply frame_trans; [exact Hl | apply refresh_access_token_frame].
Qed.

Lemma session_send_frame ev w : frame w (session_send ev w).2.
Proof. unfold session_send. simpl. by destruct (network w) as [|[?|] ?]. Qed.

Lemma api_request_loop_frame `{Runtime} attempts method url : ∀ kw last w,
  frame w (api_request_loop attempts method url kw last w).2.
Proof.
  induction attempts as [|a rest IH]; intros kw last w; [done|].
  rewrite api_request_loop_cons.
  pose proof (get_access_token_frame false w) as H1.
  destruct (get_access_token false w) as [[token|e] w1]; [|done]. simpl in H1. cbv zeta.
  match goal with |- context [session_send ?ev w1] =>
    pose proof (session_send_frame ev w1) as H2;
    destruct (session_send ev w1) as [[resp|e] w2] end; simpl in H2;
    [|by eapply frame_trans].
  destruct (negb _); [by eapply frame_trans|].
  pose proof (get_access_token_frame true w2) as H3.
  destruct (get_access_token true w2) as [[?|e] w3]; simpl in H3.
  - eapply frame_trans; [|apply IH].
    eapply frame_trans; [exact H1|]. by eapply frame_trans.
  - eapply frame_trans; [exact H1|]. by eapply frame_trans.
Qed.

Lemma api_request_frame `{Runtime} method endpoint kw w :
  frame w (api_request method endpoint kw w).2.
Proof.
  rewrite api_request_unfold.
  pose proof (api_request_loop_frame [0%nat; 1%nat] method (API_DOMAIN +:+ endpoint)
                kw None w) as Hf.
  by destruct (api_request_loop _ _ _ _ _ _) as [[[v|[resp|]]|e] w'].
Qed.

(** ** Job creation and the history file *)

Lemma job_record_fields name id module_name :
  ∃ m, job_record name id module_name = JObj m
       ∧ m !! "id" = Some id ∧ m !! "module" = Some (JStr module_name)
       ∧ ∀ s, name = Some s → s ≠ "id" → s ≠ "module" → m !! s = Some (JStr s).
Proof.
  eexists. split; [reflexivity|]. split; [|split].
  - by rewrite lookup_insert_ne, lookup_insert_eq.
  - by rewrite lookup_insert_eq.
  - intros s -> Hid Hmod.
    by rewrite lookup_insert_ne, lookup_insert_ne, lookup_insert_eq.
Qed.

(** X8: a creation that returns has logged what it returns.  The history
    file then holds the records it held before (none if it was absent)
    followed by one new record, in which "id" is the very job id returned
    and "module" the module name; a job name other than "id" and "module"
    is stored under a key equal to the name itself. *)
Theorem create_bulk_read_job_logged `{Runtime} (module_name : string) (name : option string)
    (w w' : world) (id : json) :
  create_bulk_read_job module_name name w = (Ok id, w') →
  ∃ l m,
    (history_file w = FJson (JArr l) ∨ (history_file w = FMissing ∧ l = []))
    ∧ history_file w' = FJson (JArr (l ++ [JObj m]))
    ∧ m !! "id" = Some id ∧ m !! "module" = Some (JStr module_name)
    ∧ ∀ s, name = Some s → s ≠ "id" → s ≠ "module" → m !! s = Some (JStr s).
Proof.
  unfold create_bulk_read_job, bind, lift.
  pose proof (api_request_frame "POST" "/crm/bulk/v8/read"
                (mkKwargs None None (Some (bulk_read_payload module_name))) w) as (Hh & _).
  destruct (api_request _ _ _ w) as [[res|e] w1]; [|done]. simpl in Hh.
  destruct (created_job_id res) as [id'|e] eqn:Hid; [|done].
  destruct (job_record_fields name id' module_name) as (m & Hrec & Hm).
  rewrite Hh. destruct (history_file w) as [| | |[]] eqn:Hf; simpl; try done.
  - intros [= <- <-]. exists [], m. rewrite Hrec. split; [by right|]. by split.
  - intros [= <- <-]. exists l, m. rewrite Hrec. split; [by left|]. by split.
Qed.

(** X8 at a history that already holds one record. *)
Lemma create_bulk_read_job_logged_witness :
  let w := set_history_file (FJson (JArr [JStr "old"]))
             (world_with_token [job_created "4150868000000012001"]) in
  ∃ l m,
    (history_file w = FJson (JArr l) ∨ (history_file w = FMissing ∧ l = []))
    ∧ history_file (create_bulk_read_job "Tasks" (Some "job1") w).2
      = FJson (JArr (l ++ [JObj m]))
    ∧ m !! "id" = Some (JStr "4150868000000012001")
    ∧ m !! "module" = Some (JStr "Tasks")
    ∧ ∀ s, Some "job1" = Some s → s ≠ "id" → s ≠ "module" → m !! s = Some (JStr s).
Proof.
  intros w.
  apply (create_bulk_read_job_logged "Tasks" (Some "job1") w
           (create_bulk_read_job "Tasks" (Some "job1") w).2).
  vm_compute. reflexivity.
Defined.

(** X9: a history file that exists but cannot be appended to (unreadable,
    not JSON, or JSON that is not a list) makes the creation raise after the
    vendor has answered with the new job's id: the job exists, its id is not
    returned, and the history file is as it was. *)
Theorem create_bulk_read_job_bad_history `{Runtime} (module_name : string)
    (name : option string) (w w1 : world) (res id : json) :
  api_request "POST" "/crm/bulk/v8/read"
    (mkKwargs None None (Some (bulk_read_payload module_name))) w = (Ok res, w1) →
  created_job_id res = Ok id →
  appendable (history_file w) = false →
  create_bulk_read_job module_name name w = (Raise (history_error (history_file w)), w1)
  ∧ history_file w1 = history_file w.
Proof.
  intros Hreq Hid Hbad.
  pose proof (api_request_frame "POST" "/crm/bulk/v8/read"
                (mkKwargs None None (Some (bulk_read_payload module_name))) w) as (Hh & _).
  rewrite Hreq in Hh. simpl in Hh. split; [|done].
  unfold create_bulk_read_job. rewrite (bind_ok _ _ _ _ _ Hreq).
  unfold bind, lift. rewrite Hid. cbv beta iota. rewrite Hh.
  unfold history_error.
  by destruct (history_file w) as [| | |[]].
Qed.

(** X9 at a history file that holds a JSON object. *)
Lemma create_bulk_read_job_bad_history_witness :
  let w := set_history_file (FJson (obj []))
             (world_with_token [job_created "4150868000000012001"]) in
  (create_bulk_read_job "Tasks" (Some "job1") w).1 = Raise AttributeError
  ∧ history_file (create_bulk_read_job "Tasks" (Some "job1") w).2 = FJson (obj []).
Proof.
  intros w.
  destruct (create_bulk_read_job_bad_history "Tasks" (Some "job1") w
              (api_request "POST" "/crm/bulk/v8/read"
                 (mkKwargs None None (Some (bulk_read_payload "Tasks"))) w).2
              (obj [("data", JArr [obj [("details",
                                         obj [("id", JStr "4150868000000012001")])]])])
              (JStr "4150868000000012001")
              ltac:(vm_compute; reflexivity) ltac:(vm_compute; reflexivity)
              ltac:(reflexivity)) as [Hrun Hh].
  rewrite Hrun. split; [reflexivity|]. simpl. rewrite Hh. reflexivity.
Defined.

(** ** Polling and download *)

(** X10: a poll that fails ends the polling.  When the polls before number
    [k] return non-terminal states and poll [k] raises (an HTTP error, an
    answer without "data" or "state"), [check_job_status] raises that
    exception at that poll, with any fuel above [k]. *)
Theorem check_job_status_poll_error `{Runtime} (job_id : string) (w : world) (k : nat)
    (e : exn) :
  (∀ i, (i < k)%nat →
        ∃ job_i state_i, (nth_poll job_id i w).1 = Ok (job_i, state_i) ∧
                         terminal state_i = false) →
  (nth_poll job_id k w).1 = Raise e →
  ∀ fuel, (k < fuel)%nat →
    check_job_status fuel job_id w = Some (Raise e, (nth_poll job_id k w).2).
Proof.
  revert w. induction k as [|k IH]; intros w Hbefore Hk [|fuel] Hlt; try lia.
  - unfold nth_poll in *. cbn [world_at_poll] in *.
    unfold check_job_status. rewrite while_true_S, check_job_status_body_poll.
    destruct (poll job_id w) as [[[j s]|e'] w1]; [done|].
    simpl in Hk. by injection Hk as ->.
  - destruct (Hbefore 0%nat ltac:(lia)) as (job0 & state0 & Hp0 & Ht0).
    unfold nth_poll in Hp0. cbn [world_at_poll] in Hp0.
    change (nth_poll job_id (S k) w)
      with (nth_poll job_id k (emit (EvSleep 5) (poll job_id w).2)).
    rewrite <- (IH (emit (EvSleep 5) (poll job_id w).2)) with (fuel := fuel).
    + unfold check_job_status. rewrite while_true_S, check_job_status_body_poll.
      destruct (poll job_id w) as [[[j s]|e'] w0]; [|done].
      simpl in Hp0. injection Hp0 as -> ->. by rewrite Ht0.
    + intros i Hi. apply (Hbefore (S i)). lia.
    + exact Hk.
    + lia.
Qed.

(** X10 at a job seen queued, then an answer 500. *)
Lemma check_job_status_poll_error_witness :
  let w := world_with_token [job_answer [("state", JStr "QUEUED")]; status_only 500] in
  check_job_status 2 "42" w = Some (Raise (HTTPError 500), (nth_poll "42" 1 w).2).
Proof.
  intros w.
  apply (check_job_status_poll_error "42" w 1 (HTTPError 500)).
  - intros [|i] Hi; [|lia].
    eexists _, _. split; [vm_compute; reflexivity | reflexivity].
  - vm_compute. reflexivity.
  - lia.
Defined.

(** X11: the archive answer is written whatever its status.  Once the
    metadata call has given a result with "page" and "download_url" and a
    token is at hand, [download_all_pages] returns normally and writes the
    body of the answer to the file named after the page, even when that
    answer has a 4xx or 5xx status: no status is checked on it. *)
Theorem download_all_pages_unchecked `{Runtime} (job_id out_prefix : string)
    (w w1 w2 : world) (res result page url token : json) (r : response)
    (rest : list (option response)) :
  api_request "GET" (job_url job_id) no_kwargs w = (Ok res, w1) →
  job_result res = Ok result →
  subscript result "page" = Ok page →
  subscript result "download_url" = Ok url →
  get_access_token false w1 = (Ok token, w2) →
  network w2 = Some r :: rest →
  download_all_pages job_id out_prefix w
  = (Ok tt, emit (EvFileWrite (zip_name out_prefix page) (content r))
                 (answered (download_call token url) rest w2)).
Proof.
  intros Hreq Hres Hpage Hurl Htok Hnet.
  rewrite download_all_pages_unfold, Hreq, Hres, Hpage, Htok, Hurl.
  by rewrite (session_send_answered _ r rest w2 Hnet).
Qed.

(** X11 at an archive request answered 404 with an error page. *)
Lemma download_all_pages_unchecked_witness :
  let w := world_with_token
             [ok_json (obj [("data", JArr [obj [("state", JStr "COMPLETED");
                                                ("result", paged_result)]])]);
              Some (mkResponse 404 None "not found")] in
  (download_all_pages "42" "out" w).1 = Ok tt
  ∧ filter is_file_write (trace (download_all_pages "42" "out" w).2)
    = [EvFileWrite "out_page_1.zip" "not found"].
Proof.
  intros w.
  rewrite (download_all_pages_unchecked "42" "out" w
             (api_request "GET" (job_url "42") no_kwargs w).2
             (set_ticks 2 (api_request "GET" (job_url "42") no_kwargs w).2)
             (obj [("data", JArr [obj [("state", JStr "COMPLETED");
                                       ("result", paged_result)]])])
             paged_result (JInt 1) (JStr "/crm/bulk/v8/read/42/result") (JStr "abc")
             (mkResponse 404 None "not found") []);
    try (vm_compute; reflexivity).
  split; [reflexivity | vm_compute; reflexivity].
Defined.

Lemma action_download_unfold `{Runtime} job_id out_prefix w :
  action_download job_id out_prefix w =
  match poll job_id w with
  | (Raise e, w1) => (Raise e, w1)
  | (Ok (job, state), w1) =>
      if negb (eq_str state "COMPLETED")
      then (Raise (SystemExit 1), w1)
      else download_all_pages job_id out_prefix w1
  end.
Proof.
  unfold action_download, poll, bind, lift, ret, raise.
  destruct (api_request _ _ _ w) as [[res|e] w1]; [|done].
  destruct (subscript res "data") as [data|e]; [|done].
  destruct (subscript0 data) as [job|e]; [|done].
  destruct (subscript job "state") as [state|e]; [|done].
  by destruct (negb _).
Qed.

(** X12: the [download] action fetches nothing of a job that is not
    COMPLETED.  When the state it is answered is anything else, it exits with
    status 1 having sent only its state query: no archive request, no file. *)
Theorem action_download_not_completed `{Runtime} (job_id out_prefix : string)
    (w w1 : world) (job state : json) :
  poll job_id w = (Ok (job, state), w1) →
  eq_str state "COMPLETED" = false →
  let evs := events_since w w1 in
  action_download job_id out_prefix w = (Raise (SystemExit 1), w1)
  ∧ filter is_direct_request evs = []
  ∧ filter is_file_write evs = [].
Proof.
  intros Hp Hs evs. subst evs. split.
  - by rewrite action_download_unfold, Hp, Hs.
  - destruct (poll_trace job_id w) as (evs & Htr & Hall & _).
    rewrite Hp in Htr. simpl in Htr. rewrite (events_since_app _ _ _ Htr).
    split.
    + exact (filter_none is_direct_request _ evs (wrapper_event_not_direct _ _) Hall).
    + exact (filter_none is_file_write _ evs (wrapper_event_not_file_write _ _) Hall).
Qed.

(** X12 at a job still in progress. *)
Lemma action_download_not_completed_witness :
  let w := world_with_token [job_answer [("state", JStr "IN PROGRESS")];
                             Some (mkResponse 200 None "PK...")] in
  (action_download "42" "out" w).1 = Raise (SystemExit 1)
  ∧ filter is_direct_request (events_since w (poll "42" w).2) = []
  ∧ filter is_file_write (events_since w (poll "42" w).2) = [].
Proof.
  intros w.
  destruct (action_download_not_completed "42" "out" w (poll "42" w).2
              (obj [("state", JStr "IN PROGRESS")]) (JStr "IN PROGRESS")
              ltac:(vm_compute; reflexivity) ltac:(reflexivity)) as (Hrun & Hd & Hf).
  rewrite Hrun. by repeat split.
Defined.

(** ** Batch delete: what is read and when it stops *)

(** X13: when several header cells read "Id", the identifiers are the cells
    of the last such column (one per non-empty row, [None] where the row is
    too short to reach it). *)
Theorem read_id_column_last_Id (file_path : string) (w : world)
    (fieldnames : list string) (rows : list (list string)) (i : nat) :
  csv_files w !! file_path = Some (fieldnames :: rows) →
  fieldnames !! i = Some "Id" →
  (∀ j, (i < j)%nat → fieldnames !! j ≠ Some "Id") →
  read_id_column file_path w = (Ok (column i rows), w).
Proof.
  intros Hcsv Hi Hlast.
  rewrite (read_id_column_accepts _ _ _ _ Hcsv)
    by (apply list_elem_of_lookup; by exists i).
  f_equal. unfold column. induction (reader_rows rows) as [|row rs IH]; [done|].
  cbn [read_ids map]. by rewrite (row_Id_last _ _ i Hi Hlast), IH.
Qed.

(** X13 at a header with two columns named "Id". *)
Lemma read_id_column_last_Id_witness :
  let w := world_with_csv [["Id"; "Name"; "Id"]; ["1"; "a"; "2"]; []; ["3"; "b"]] [] in
  read_id_column "ids.csv" w = (Ok [Some "2"; None], w).
Proof.
  intros w.
  apply (read_id_column_last_Id "ids.csv" w ["Id"; "Name"; "Id"]
           [["1"; "a"; "2"]; []; ["3"; "b"]] 2 ltac:(reflexivity) ltac:(reflexivity)).
  intros [|[|[|[|j]]]] Hj; try lia; done.
Defined.

(** X14: a file with the header and no non-empty row deletes nothing.  The
    token is still looked up, no DELETE is sent, and the run ends well with a
    count of 0. *)
Theorem delete_batch_no_rows `{Runtime} (module file_path : string) (w w1 : world)
    (fieldnames : list string) (rows : list (list string)) (token : json) :
  csv_files w !! file_path = Some (fieldnames :: rows) →
  "Id" ∈ fieldnames →
  reader_rows rows = [] →
  get_access_token false w = (Ok token, w1) →
  delete_batch_from_file module file_path w = ((Ok tt, 0), w1)
  ∧ requests_of (events_since w w1) = [].
Proof.
  intros Hcsv Hin Hrows Htok. split.
  - unfold delete_batch_from_file.
    rewrite (read_id_column_accepts _ _ _ _ Hcsv Hin), Hrows. cbn [read_ids].
    rewrite Htok. by rewrite chunked_nil.
  - destruct (get_access_token_trace false w) as (evs0 & Htr0 & Hevs0).
    rewrite Htok in Htr0. simpl in Htr0. rewrite (events_since_app _ _ _ Htr0).
    by destruct Hevs0 as [-> | ->].
Qed.

(** X14 at a file that holds the header and two blank lines. *)
Lemma delete_batch_no_rows_witness :
  let w := world_with_csv [["Id"]; []; []] [status_only 200] in
  delete_batch_from_file "Tasks" "ids.csv" w = ((Ok tt, 0), set_ticks 1 w)
  ∧ requests_of (events_since w (set_ticks 1 w)) = [].
Proof.
  intros w.
  apply (delete_batch_no_rows "Tasks" "ids.csv" w (set_ticks 1 w) ["Id"] [[]; []]
           (JStr "abc"));
    [reflexivity | apply list_elem_of_In; by left | vm_compute; reflexivity
    | vm_compute; reflexivity].
Defined.

Lemma join_ids_None batch : None ∈ batch → join_ids batch = Raise TypeError.
Proof.
  unfold join_ids. intros Hin.
  assert (str_items batch = Raise TypeError) as ->; [|done].
  induction batch as [|[s|] batch IH]; [by apply elem_of_nil in Hin | | done].
  apply elem_of_cons in Hin as [?|Hin]; [done|]. simpl. by rewrite IH.
Qed.

(** X15: a row without the "Id" cell stops the batch delete at its chunk,
    after the chunks before it were deleted.  When chunk [k] holds a [None]
    and the chunks before it were answered without an error status, the run
    raises [TypeError]; the DELETE calls sent are those of the [k] chunks
    before, which stay deleted, and [total_deleted] counts them. *)
Theorem delete_batch_halts_at_missing_id `{Runtime} (module file_path : string)
    (w w1 : world) (ids : list (option string)) (token : json)
    (pre post : list (list (option string))) (batch : list (option string))
    (strs : list string) (resps : list response) (rest : list (option response)) :
  read_id_column file_path w = (Ok ids, w) →
  get_access_token false w = (Ok token, w1) →
  chunked 100 ids = pre ++ batch :: post →
  joined pre strs → None ∈ batch →
  network w1 = map Some resps ++ rest →
  length resps = length pre →
  Forall (λ r, is_error_status (status_code r) = false) resps →
  let out := delete_batch_from_file module file_path w in
  let headers := <["Authorization" := authorization token]> ∅ in
  out.1 = (Raise TypeError, Z.of_nat (length (concat pre)))
  ∧ requests_of (events_since w1 out.2) = map (delete_call module headers) strs
  ∧ network out.2 = rest.
Proof.
  intros Hread Htok Hchunks Hj Hnone Hnet Hlen Hok out headers. subst out.
  rewrite (delete_batch_from_file_unfold _ _ _ _ _ _ Hread Htok), Hchunks. fold headers.
  destruct (delete_loop_pass module headers pre strs resps (batch :: post) 0 w1
              rest Hj Hlen Hok Hnet) as (w' & -> & Htr & Hnet').
  rewrite delete_loop_cons, (join_ids_None _ Hnone). cbn [fst snd].
  split; [done|]. split; [|done].
  rewrite (events_since_app w1 _ _ Htr).
  rewrite <- (requests_of_map (map (delete_call module headers) strs)).
  by rewrite map_map.
Qed.

(** X15 at a file of 101 rows whose last row lacks the cell: the first
    chunk of 100 is deleted and counted, the second raises before its
    DELETE is sent, and the answer it would have read stays pending. *)
Lemma delete_batch_halts_at_missing_id_witness :
  let w := world_with_csv (["Name"; "Id"] :: replicate 100 ["x"; "7"] ++ [["y"]])
             [status_only 200; status_only 200] in
  let out := delete_batch_from_file "Tasks" "ids.csv" w in
  let hundred := String.concat "," (replicate 100 "7") in
  out.1 = (Raise TypeError, 100)
  ∧ requests_of (events_since (set_ticks 1 w) out.2)
    = map (delete_call "Tasks" (<["Authorization" := authorization (JStr "abc")]> ∅))
          [hundred]
  ∧ network out.2 = [status_only 200].
Proof.
  intros w out hundred.
  apply (delete_batch_halts_at_missing_id "Tasks" "ids.csv" w (set_ticks 1 w)
           (replicate 100 (Some "7") ++ [None]) (JStr "abc")
           [replicate 100 (Some "7")] [] [None] [hundred]
           [mkResponse 200 None ""] [status_only 200]).
  - vm_compute; reflexivity.
  - vm_compute; reflexivity.
  - vm_compute; reflexivity.
  - constructor; [vm_compute; reflexivity | constructor].
  - apply list_elem_of_In. by left.
  - reflexivity.
  - reflexivity.
  - constructor; [reflexivity | constructor].
Defined.

(** ** The command line *)

(** X16: too few arguments end the script at once.  With no action given, or
    with fewer arguments than the action asks for (create, download and
    delete_batch two, status and list_fields one), [main] exits with status
    1 and the world is untouched: nothing is read, sent or written. *)
Theorem main_usage_exit `{Runtime} (fuel : nat) (argv : list string) (w : world) :
  (length argv < min_args argv)%nat →
  main fuel argv w = Some (Raise (SystemExit 1), w).
Proof.
  unfold min_args, main, argv_at, required_args. intros Hlen.
  destruct (length argv <? 2)%nat eqn:H2; [done|].
  apply Nat.ltb_ge in H2.
  destruct (argv !! 1%nat) as [action|] eqn:Ha.
  2:{ apply lookup_ge_None in Ha. lia. }
  destruct (String.eqb action "create").
  { destruct (2 <? length argv)%nat eqn:H3.
    - destruct (argv !! 2%nat) as [m|] eqn:Hm.
      + simpl in Hlen. apply Nat.ltb_lt in Hlen. by rewrite Hlen.
      + apply lookup_ge_None in Hm. apply Nat.ltb_lt in H3. lia.
    - simpl in Hlen. apply Nat.ltb_lt in Hlen. by rewrite Hlen. }
  destruct (String.eqb action "status").
  { simpl in Hlen. apply Nat.ltb_lt in Hlen. by rewrite Hlen. }
  destruct (String.eqb action "download").
  { simpl in Hlen. apply Nat.ltb_lt in Hlen. by rewrite Hlen. }
  destruct (String.eqb action "list_fields").
  { simpl in Hlen. apply Nat.ltb_lt in Hlen. by rewrite Hlen. }
  destruct (String.eqb action "delete_batch").
  { simpl in Hlen. apply Nat.ltb_lt in Hlen. by rewrite Hlen. }
  simpl in Hlen. lia.
Qed.

(** X16 at [create] given a module and no job name. *)
Lemma main_usage_exit_witness :
  let w := world_with_token [job_created "1"] in
  main 0 ["zoho_bulk.py"; "create"; "Tasks"] w = Some (Raise (SystemExit 1), w).
Proof.
  intros w. apply (main_usage_exit 0 ["zoho_bulk.py"; "create"; "Tasks"] w).
  vm_compute. lia.
Defined.

(** X17: a word that is no action ends the script normally.  [main] returns
    without an exception (exit status 0) and leaves the world untouched,
    whatever arguments follow. *)
Theorem main_unknown_action `{Runtime} (fuel : nat) (argv : list string) (w : world)
    (action : string) :
  argv !! 1%nat = Some action →
  required_args action = None →
  main fuel argv w = Some (Ok tt, w).
Proof.
  unfold main, argv_at, required_args. intros Ha Hreq.
  pose proof (lookup_lt_Some _ _ _ Ha) as Hlen.
  destruct (length argv <? 2)%nat eqn:H2; [apply Nat.ltb_lt in H2; lia|].
  rewrite Ha.
  destruct (String.eqb action "create"); [done|].
  destruct (String.eqb action "status"); [done|].
  destruct (String.eqb action "download"); [done|].
  destruct (String.eqb action "list_fields"); [done|].
  by destruct (String.eqb action "delete_batch").
Qed.

(** X17 at the misspelt action "delete". *)
Lemma main_unknown_action_witness :
  let w := world_with_csv (csv_of_size 2) [status_only 200] in
  main 0 ["zoho_bulk.py"; "delete"; "Tasks"; "ids.csv"] w = Some (Ok tt, w).
Proof.
  intros w.
  by apply (main_unknown_action 0 ["zoho_bulk.py"; "delete"; "Tasks"; "ids.csv"] w "delete").
Defined.

(** X18: the [create] action always takes its module from the command
    line.  Whenever it gets as far as creating the job, that is with at
    least a module and a job name given, the module is [argv[2]] and the
    name [argv[3]]; further arguments are ignored, and the default module
    "Tasks" of the script is never used. *)
Theorem main_create `{Runtime} (fuel : nat) (argv : list string) (w : world) :
  argv !! 1%nat = Some "create" →
  (4 ≤ length argv)%nat →
  ∃ module name,
    argv !! 2%nat = Some module ∧ argv !! 3%nat = Some name
    ∧ main fuel argv w
      = Some (ignore_value (create_bulk_read_job module (Some name) w)).
Proof.
  intros Ha Hlen.
  destruct (argv !! 2%nat) as [module|] eqn:Hm.
  2:{ apply lookup_ge_None in Hm. lia. }
  destruct (argv !! 3%nat) as [name|] eqn:Hn.
  2:{ apply lookup_ge_None in Hn. lia. }
  exists module, name. split; [done|]. split; [done|].
  unfold main, argv_at, with_arg, ignore_value. rewrite Ha. cbn [String.eqb Ascii.eqb Bool.eqb].
  replace (length argv <? 2)%nat with false by (symmetry; apply Nat.ltb_ge; lia).
  replace (2 <? length argv)%nat with true by (symmetry; apply Nat.ltb_lt; lia).
  replace (length argv <? 4)%nat with false by (symmetry; apply Nat.ltb_ge; lia).
  rewrite Hm. unfold bind, lift, argv_at, ret. rewrite Hn.
  by destruct (create_bulk_read_job module (Some name) w) as [[?|?] ?].
Qed.

(** X18 at a command line with one argument too many. *)
Lemma main_create_witness :
  let w := world_with_token [job_created "1"] in
  ∃ module name,
    ["zoho_bulk.py"; "create"; "Leads"; "job1"; "extra"] !! 2%nat = Some module
    ∧ ["zoho_bulk.py"; "create"; "Leads"; "job1"; "extra"] !! 3%nat = Some name
    ∧ main 0 ["zoho_bulk.py"; "create"; "Leads"; "job1"; "extra"] w
      = Some (ignore_value (create_bulk_read_job module (Some name) w)).
Proof.
  intros w.
  apply (main_create 0 ["zoho_bulk.py"; "create"; "Leads"; "job1"; "extra"] w).
  - reflexivity.
  - simpl. lia.
Defined.

(** ** Field metadata *)

Lemma field_line_shows f line : field_line f = Ok line ↔ shows f line.
Proof.
  unfold field_line, shows, subscript, dict_get. split.
  - destruct f; try done. destruct (m !! "api_name") as [a|] eqn:Ha; [|done].
    destruct (formattable a) eqn:Hf; [|done]. intros [= <-]. by exists m.
  - intros (m & -> & Ha & Hf & Ht). rewrite Ha, Hf. destruct line. simpl in *. by subst.
Qed.

Lemma print_fields_prefix (fields : list json) :
  ∃ n, Forall2 shows (take n fields) (print_fields fields).1
       ∧ match (print_fields fields).2 with
         | Ok _ => n = length fields
         | Raise e => ∃ f, fields !! n = Some f ∧ field_line f = Raise e
         end.
Proof.
  induction fields as [|f fields (n & Hlines & Hend)].
  { exists 0%nat. split; [constructor | done]. }
  cbn [print_fields]. destruct (field_line f) as [line|e] eqn:Hf.
  - destruct (print_fields fields) as [lines r]. exists (S n). split.
    + constructor; [by apply field_line_shows | done].
    + simpl in *. destruct r; [by subst | done].
  - exists 0%nat. split; [constructor|]. by exists f.
Qed.

(** X19: [list_fields] prints one line per field, in order, up to the first
    field it cannot show.  Given the answer of the metadata call: without a
    "fields" entry nothing is printed and nothing raised; with a list, each
    line shows the [api_name] of its field and its [data_type] ([None] if
    absent), and the run either covers the whole list or stops, raising, at
    the first field that is no object, lacks [api_name], or has one that
    [format] rejects; the lines before it stay printed. *)
Theorem list_fields_lines `{Runtime} (module_name : string) (w w1 : world)
    (m : gmap string json) :
  api_request "GET" "/crm/v8/settings/fields" (fields_kwargs module_name) w
  = (Ok (JObj m), w1) →
  let out := list_fields module_name w in
  out.2 = w1
  ∧ (m !! "fields" = None → out.1 = ([], Ok tt))
  ∧ ∀ l, m !! "fields" = Some (JArr l) →
      ∃ n, Forall2 shows (take n l) out.1.1
           ∧ match out.1.2 with
             | Ok _ => n = length l
             | Raise e => ∃ f, l !! n = Some f ∧ field_line f = Raise e
             end.
Proof.
  intros Hreq out. subst out. unfold list_fields. rewrite Hreq. cbn [dict_get].
  split; [|split].
  - by destruct (m !! "fields").
  - by intros ->.
  - intros l ->. cbn [default print_fields_of fst snd]. apply print_fields_prefix.
Qed.

(** X19 at an answer whose second field lacks [api_name]. *)
Lemma list_fields_lines_witness :
  let fields := [obj [("api_name", JStr "Subject"); ("data_type", JStr "text")];
                 obj [("data_type", JStr "date")];
                 obj [("api_name", JStr "Due_Date")]] in
  let w := world_with_token [ok_json (obj [("fields", JArr fields)])] in
  ∃ n, Forall2 shows (take n fields) (list_fields "Tasks" w).1.1
       ∧ match (list_fields "Tasks" w).1.2 with
         | Ok _ => n = length fields
         | Raise e => ∃ f, fields !! n = Some f ∧ field_line f = Raise e
         end.
Proof.
  intros fields w.
  pose (m := <["fields" := JArr fields]> (∅ : gmap string json)).
  assert (Hreq : api_request "GET" "/crm/v8/settings/fields" (fields_kwargs "Tasks") w
                 = (Ok (JObj m),
                    (api_request "GET" "/crm/v8/settings/fields"
                       (fields_kwargs "Tasks") w).2))
    by (vm_compute; reflexivity).
  destruct (list_fields_lines "Tasks" w _ m Hreq) as (_ & _ & Hl).
  apply Hl. reflexivity.
Defined.

(** The same answer, evaluated: one line, then [KeyError]. *)
Example list_fields_stops_at_bad_field :
  let fields := [obj [("api_name", JStr "Subject"); ("data_type", JStr "text")];
                 obj [("data_type", JStr "date")];
                 obj [("api_name", JStr "Due_Date")]] in
  let w := world_with_token [ok_json (obj [("fields", JArr fields)])] in
  (list_fields "Tasks" w).1 = ([(JStr "Subject", JStr "text")], Raise KeyError).
Proof. vm_compute. done. Qed.

(** ** Chunks of any size *)

(** X20: what holds of chunks of 100 holds of any size [s] of at least 1:
    [chunked(l, s)] yields ceil(N/s) chunks, none empty and none longer than
    [s], all but the last of length [s], whose concatenation is [l]; an empty
    list yields no chunk; and chunking commutes with mapping a function over
    the items. *)
Theorem chunked_any_size {A B} (f : A → B) (n : nat) (l : list A) :
  let s := S n in
  let chunks := chunked s l in
  (length chunks = (length l + n) / s
   ∧ Forall (λ b, 1 ≤ length b ≤ s) chunks
   ∧ (∀ i b, chunks !! i = Some b → S i < length chunks → length b = s)
   ∧ concat chunks = l
   ∧ (chunks = [] ↔ l = [])
   ∧ chunked s (map f l) = map (map f) chunks)%nat.
Proof.
  intros s chunks. subst s chunks.
  pose proof (chunked_length n l) as Hlen.
  pose proof (Nat.div_mod_eq (length l + n) (S n)) as Hdm.
  pose proof (Nat.mod_upper_bound (length l + n) (S n) ltac:(lia)) as Hub.
  split; [done|]. split; [|split; [|split; [|split]]].
  - apply Forall_lookup_2. intros i b Hb.
    rewrite chunked_lookup in Hb. case_decide; [|done].
    injection Hb as <-. rewrite length_take, length_drop. lia.
  - intros i b Hb Hi.
    rewrite chunked_lookup in Hb. case_decide; [|done].
    injection Hb as <-. rewrite length_take, length_drop.
    rewrite Hlen in Hi. nia.
  - apply chunked_concat.
  - split.
    + intros Hnil. rewrite <- (chunked_concat n l), Hnil. done.
    + intros ->. apply chunked_nil.
  - apply chunked_map.
Qed.

(** ** What stays fixed *)

(** X21: one token serves a whole batch delete.  Every DELETE of a run
    carries the same headers, the [Authorization] built from the token that
    the single lookup before the loop returned; the loop itself never looks
    the token up again. *)
Theorem delete_batch_one_token `{Runtime} (module file_path : string) (w w1 : world)
    (ids : list (option string)) (token : json) :
  read_id_column file_path w = (Ok ids, w) →
  get_access_token false w = (Ok token, w1) →
  let out := delete_batch_from_file module file_path w in
  Forall (λ rq, rq_method rq = "DELETE"
                ∧ rq_headers rq = <["Authorization" := authorization token]> ∅)
         (requests_of (events_since w out.2))
  ∧ filter is_token_post (events_since w1 out.2) = [].
Proof.
  intros Hread Htok out. subst out.
  rewrite (delete_batch_from_file_unfold _ _ _ _ _ _ Hread Htok).
  set (headers := <["Authorization" := authorization token]> ∅).
  destruct (get_access_token_trace false w) as (evs0 & Htr0 & Hevs0).
  rewrite Htok in Htr0. simpl in Htr0.
  destruct (delete_loop_trace module headers (chunked 100 ids) 0 w1)
    as (n & strs & _ & Htr & _).
  split.
  - rewrite (events_since_app w _
               (evs0 ++ map (λ s, EvRequest (delete_call module headers s)) strs)).
    + rewrite requests_of_app.
      assert (requests_of evs0 = []) as -> by (by destruct Hevs0 as [-> | ->]).
      cbn [app].
      rewrite <- (map_map (delete_call module headers) EvRequest), requests_of_map.
      apply Forall_forall. by intros rq [s [<- _]]%list_elem_of_In%in_map_iff.
    + by rewrite Htr, Htr0, <- app_assoc.
  - rewrite (events_since_app _ _ _ Htr). clear.
    induction strs as [|s strs IH]; [done|].
    cbn [map]. by rewrite filter_cons_False by (by intros []).
Qed.

(** X21 at a file of 101 identifiers, deleted in two chunks. *)
Lemma delete_batch_one_token_witness :
  let w := world_with_csv (csv_of_size 101) [status_only 200; status_only 200] in
  let out := delete_batch_from_file "Tasks" "ids.csv" w in
  Forall (λ rq, rq_method rq = "DELETE"
                ∧ rq_headers rq = <["Authorization" := authorization (JStr "abc")]> ∅)
         (requests_of (events_since w out.2))
  ∧ filter is_token_post (events_since (set_ticks 1 w) out.2) = [].
Proof.
  intros w.
  apply (delete_batch_one_token "Tasks" "ids.csv" w (set_ticks 1 w)
           (replicate 101 (Some "7")) (JStr "abc")); vm_compute; reflexivity.
Defined.

Lemma delete_loop_frame `{Runtime} module headers batches : ∀ total w,
  frame w (delete_loop module headers batches total w).2
  ∧ cache_file (delete_loop module headers batches total w).2 = cache_file w.
Proof.
  induction batches as [|batch rest IH]; intros total w; [done|].
  rewrite delete_loop_cons. destruct (join_ids batch) as [s|e]; [|done].
  unfold session_send. simpl.
  destruct (network w) as [|[resp|] net]; try done.
  destruct (is_error_status _); [done|].
  destruct (IH (total + Z.of_nat (length batch))
               (set_network net (emit (EvRequest (delete_call module headers s)) w)))
    as [Hf Hc].
  split; [|by rewrite Hc]. eapply frame_trans; [|exact Hf]. done.
Qed.

Lemma poll_frame `{Runtime} job_id w : frame w (poll job_id w).2.
Proof.
  pose proof (api_request_frame "GET" (job_url job_id) no_kwargs w) as Hf.
  unfold poll, bind, lift, ret.
  destruct (api_request _ _ _ w) as [[res|e] w1]; [|done].
  destruct (subscript res "data") as [data|e]; [|done].
  destruct (subscript0 data) as [job|e]; [|done].
  by destruct (subscript job "state").
Qed.

Lemma check_job_status_frame `{Runtime} job_id fuel : ∀ w out,
  check_job_status fuel job_id w = Some out → frame w out.2.
Proof.
  unfold check_job_status. induction fuel as [|fuel IH]; intros w out; [done|].
  rewrite while_true_S, check_job_status_body_poll.
  pose proof (poll_frame job_id w) as Hf.
  destruct (poll job_id w) as [[[job state]|e] w1]; simpl in Hf.
  2:{ by intros [= <-]. }
  destruct (terminal state).
  - by destruct (verdict job state); intros [= <-].
  - intros Hrun. eapply frame_trans; [|exact (IH _ _ Hrun)].
    eapply frame_trans; [exact Hf | done].
Qed.

Lemma download_all_pages_frame `{Runtime} job_id out_prefix w :
  frame w (download_all_pages job_id out_prefix w).2.
Proof.
  rewrite download_all_pages_unfold.
  pose proof (api_request_frame "GET" (job_url job_id) no_kwargs w) as H1.
  destruct (api_request _ _ _ w) as [[res|e] w1]; [|done]. simpl in H1.
  destruct (job_result res) as [result|e]; [|done].
  destruct (subscript result "page") as [page|e]; [|done].
  pose proof (get_access_token_frame false w1) as H2.
  destruct (get_access_token false w1) as [[token|e] w2]; simpl in H2;
    [|by eapply frame_trans].
  destruct (subscript result "download_url") as [url|e]; [|by eapply frame_trans].
  match goal with |- context [session_send ?ev w2] =>
    pose proof (session_send_frame ev w2) as H3;
    destruct (session_send ev w2) as [[r|e] w3] end; simpl in H3.
  - eapply frame_trans; [exact H1|]. eapply frame_trans; [exact H2|].
    eapply frame_trans; [exact H3|]. done.
  - eapply frame_trans; [exact H1|]. by eapply frame_trans.
Qed.

Lemma no_file_written_events (P : event → Prop) w w' evs :
  (∀ e, P e → is_file_write e = false) →
  trace w' = trace w ++ evs → Forall P evs → no_file_written w w'.
Proof.
  intros HP Htr Hall. unfold no_file_written. rewrite (events_since_app _ _ _ Htr).
  by apply (filter_none _ P).
Qed.

Lemma no_file_written_wrapper method url w w' evs :
  trace w' = trace w ++ evs → Forall (wrapper_event method url) evs →
  no_file_written w w'.
Proof. apply no_file_written_events, wrapper_event_not_file_write. Qed.

(** X22: who writes which file.  Of the handlers only job creation writes
    the job history file, and it does so exactly when it returns the job's
    id; token lookups, [api_request], [list_fields], polling, download and
    batch delete leave the history file as it was.  And none of them but
    the download writes any further file. *)
Theorem only_create_writes_history `{Runtime} :
  (∀ b w, let w' := (get_access_token b w).2 in
          history_file w' = history_file w ∧ no_file_written w w')
  ∧ (∀ method endpoint kw w,
       let w' := (api_request method endpoint kw w).2 in
       history_file w' = history_file w ∧ no_file_written w w')
  ∧ (∀ module_name w,
       let w' := (list_fields module_name w).2 in
       history_file w' = history_file w ∧ no_file_written w w')
  ∧ (∀ fuel job_id w,
       match check_job_status fuel job_id w with
       | Some out => history_file out.2 = history_file w ∧ no_file_written w out.2
       | None => True
       end)
  ∧ (∀ job_id out_prefix w,
       history_file (download_all_pages job_id out_prefix w).2 = history_file w)
  ∧ (∀ module file_path w,
       let w' := (delete_batch_from_file module file_path w).2 in
       history_file w' = history_file w ∧ no_file_written w w')
  ∧ (∀ module_name name w,
       let out := create_bulk_read_job module_name name w in
       no_file_written w out.2
       ∧ (history_file out.2 ≠ history_file w ↔ ∃ id, out.1 = Ok id)).
Proof.
  split; [|split; [|split; [|split; [|split; [|split]]]]].
  - intros b w w'. split; [apply get_access_token_frame|].
    destruct (get_access_token_trace b w) as (evs & Htr & Hevs).
    apply (no_file_written_wrapper "GET" "" _ _ evs Htr).
    by apply token_events_wrapper.
  - intros method endpoint kw w w'. split; [apply api_request_frame|].
    destruct (api_request_trace method endpoint kw w) as (evs & Htr & Hall & _).
    exact (no_file_written_wrapper _ _ _ _ evs Htr Hall).
  - intros module_name w w'. subst w'. unfold list_fields.
    pose proof (api_request_frame "GET" "/crm/v8/settings/fields"
                  (fields_kwargs module_name) w) as [Hh _].
    destruct (api_request_trace "GET" "/crm/v8/settings/fields"
                (fields_kwargs module_name) w) as (evs & Htr & Hall & _).
    pose proof (no_file_written_wrapper _ _ _ _ evs Htr Hall) as Hn.
    destruct (api_request _ _ _ w) as [[res|e] w1]; [|done].
    by destruct (dict_get res "fields" (JArr [])).
  - intros fuel job_id w.
    destruct (check_job_status fuel job_id w) as [out|] eqn:Hrun; [|done].
    split; [by apply (check_job_status_frame job_id fuel)|].
    destruct (check_job_status_trace job_id fuel w out Hrun) as (evs & Htr & Hall).
    refine (no_file_written_events _ _ _ evs _ Htr Hall).
    intros e [He | ->]; [by apply wrapper_event_not_file_write in He | done].
  - intros job_id out_prefix w. apply download_all_pages_frame.
  - intros module file_path w w'. split.
    + subst w'. unfold delete_batch_from_file.
      pose proof (read_id_column_world file_path w) as Hw.
      destruct (read_id_column file_path w) as [[ids|e] w0]; simpl in Hw; subst w0; [|done].
      pose proof (get_access_token_frame false w) as Hf.
      destruct (get_access_token false w) as [[token|e] w1]; [|apply Hf].
      apply (frame_trans _ _ _ Hf), delete_loop_frame.
    + destruct (delete_batch_from_file_trace module file_path w)
        as (evs0 & token & strs & Htr & Hevs0).
      subst w'. unfold no_file_written. rewrite (events_since_app _ _ _ Htr), filter_app.
      assert (filter is_file_write evs0 = []) as -> by (by destruct Hevs0 as [-> | ->]).
      cbn [app]. clear. induction strs as [|s strs IH]; [done|].
      cbn [map]. by rewrite filter_cons_False by (by intros []).
  - intros module_name name w out. split.
    + destruct (create_bulk_read_job_trace module_name name w) as (evs & Htr & Hall).
      exact (no_file_written_wrapper _ _ _ _ evs Htr Hall).
    + subst out. unfold create_bulk_read_job, bind, lift.
      pose proof (api_request_frame "POST" "/crm/bulk/v8/read"
                    (mkKwargs None None (Some (bulk_read_payload module_name))) w)
        as [Hh _].
      destruct (api_request _ _ _ w) as [[res|e] w1]; simpl in Hh;
        [|split; [done | by intros [? ?]]].
      destruct (created_job_id res) as [id|e] eqn:Hid;
        [|split; [done | by intros [? ?]]].
      rewrite <- Hh.
      destruct (history_file w1) as [| | |[]] eqn:Hf; simpl; rewrite ?Hf;
        try (split; [done | by intros [? ?]]).
      * split; [by eexists | done].
      * split; [by eexists|]. intros _ [= Hl]. by apply snoc_neq in Hl.
Qed.

(** X23: the cache file is only ever overwritten with the token being
    returned.  If a token lookup changes the cache file, then it has asked
    the token endpoint, it returns a token, and the cache now holds that
    token with a float expiry. *)
Theorem cache_written_with_returned_token `{Runtime} (b : bool) (w : world) :
  let out := get_access_token b w in
  cache_file out.2 ≠ cache_file w →
  ∃ tok expires_at,
    out.1 = Ok tok
    ∧ cached_entry out.2 = Some (tok, JFloat expires_at)
    ∧ trace out.2 = trace w ++ [EvTokenPost].
Proof.
  intros out Hchg. subst out.
  destruct (get_access_token_refresh_or_hit b w) as [(t & Ht) | (w1 & (Htr & _ & Hc) & Hr)].
  { by rewrite Ht in Hchg. }
  rewrite Hr in Hchg |- *.
  destruct (refresh_access_token w1) as [[tok|e] w2] eqn:Href.
  - destruct (refresh_access_token_saved w1 tok w2 Href)
      as (resp & rest & data & v & n & fl & _ & _ & _ & _ & _ & _ & Hsaved & _).
    exists tok, (PrimFloat.add (clock w1 (ticks w1)) fl). split; [done|]. split.
    + unfold cached_entry. simpl. rewrite Hsaved.
      by rewrite lookup_insert_ne, lookup_insert_eq, lookup_insert_eq.
    + rewrite <- Htr, <- (refresh_access_token_trace w1). by rewrite Href.
  - exfalso. apply Hchg. simpl. rewrite <- Hc.
    by apply (refresh_access_token_raise w1 e).
Qed.

(** X23 at a forced refresh. *)
Lemma cache_written_with_returned_token_witness :
  let w := world_with_token [token_response "new" 3600] in
  ∃ tok expires_at,
    (get_access_token true w).1 = Ok tok
    ∧ cached_entry (get_access_token true w).2 = Some (tok, JFloat expires_at)
    ∧ trace (get_access_token true w).2 = trace w ++ [EvTokenPost].
Proof.
  intros w. apply (cache_written_with_returned_token true w).
  vm_compute. intros Heq. discriminate Heq.
Defined.
